(** * Ticket projection and listing of the shop module

    A shallow embedding of [src/lib/server/shop/getTickets.ts]:
    [ticketIncludedFields], [formatTicket], [getTicket], [getTickets] and
    [getEventsWithTickets], together with the part of the Prisma query
    engine those functions rely on (relation filters, [include] with
    nested [where], [_count], [orderBy]). The page of a position
    ([routes/(app)/positions/[id]/+page.server.ts]) follows in a module of
    its own.

    Conventions.
    - A JavaScript [Date] is its [valueOf()], a number of milliseconds, in
      [Z]; a nullable column is an [option]. Dates stay within the range
      of [Date], where sums of milliseconds are exact.
    - A JavaScript number holding a Prisma [Int] is a [Z].
    - A JavaScript object is a finite map from property names to values;
      object spread is a (biased) union, a property written after a spread
      is an insertion, [delete o.k] is [delete k o]. *)

From Stdlib Require Import ZArith List.
From stdpp Require Import gmap strings list fin_maps sorting.

Set Warnings "-register-all".
#[local] Open Scope Z_scope.

(** ** JavaScript values *)

Inductive scalar :=
| SNull
| SBool (b : bool)
| SNum (n : Z)
| SStr (s : string)
| SDate (ms : Z).

#[global] Instance scalar_eq_dec : EqDecision scalar.
Proof. solve_decision. Defined.

Inductive value :=
| VScalar (s : scalar)
| VArray (vs : list value)
| VObject (o : gmap string value).

Abbreviation obj := (gmap string value).
Abbreviation columns := (gmap string scalar).

Definition VBool (b : bool) : value := VScalar (SBool b).
Definition VNum (n : Z) : value := VScalar (SNum n).
Definition VDate (ms : Z) : value := VScalar (SDate ms).

(** A [Date | null] property. *)
Definition nullable_date (d : option Z) : value :=
  match d with Some ms => VDate ms | None => VScalar SNull end.

(** A [number | null] property. *)
Definition nullable_num (n : option Z) : value :=
  match n with Some k => VNum k | None => VScalar SNull end.

(** [{...earlier, ...later}]: the properties of [later] win. *)
Definition spread (earlier later : obj) : obj := later ∪ earlier.

(** [!d] for [d : Date | null]: every object, a [Date] included, is truthy. *)
Definition js_not (d : option Z) : bool :=
  match d with Some _ => false | None => true end.

(** [d !== null] for [d : Date | null]. *)
Definition js_neq_null (d : option Z) : bool :=
  match d with Some _ => true | None => false end.

(** ** The Prisma models read by the module

    The schema is not part of the sources at hand: each model is the
    columns the code names, typed as the code uses them, and a map
    holding whatever other scalar columns the model has. *)

Record Consumable := {
  purchasedAt : option Z;
  expiresAt : option Z;
  consumable_columns : columns;
}.

Record ConsumableReservation := {
  order : option Z;
  reservation_columns : columns;
}.

Record Shoppable := {
  availableFrom : Z;
  availableTo : option Z;
  removedAt : option Z;
  shoppable_columns : columns;
}.

Record Ticket := {
  id : string;
  stock : Z;
  maxAmountPerUser : Z;
  ticket_columns : columns;
}.

(** The rows as the client hands them over: the named columns laid over
    the remaining ones. *)
Definition Consumable_obj (c : Consumable) : obj :=
  <["purchasedAt" := nullable_date (purchasedAt c)]>
  (<["expiresAt" := nullable_date (expiresAt c)]>
  (VScalar <$> consumable_columns c)).

Definition ConsumableReservation_obj (r : ConsumableReservation) : obj :=
  <["order" := nullable_num (order r)]> (VScalar <$> reservation_columns r).

Definition Shoppable_obj (s : Shoppable) : obj :=
  <["availableFrom" := VDate (availableFrom s)]>
  (<["availableTo" := nullable_date (availableTo s)]>
  (<["removedAt" := nullable_date (removedAt s)]>
  (VScalar <$> shoppable_columns s))).

Definition Ticket_obj (t : Ticket) : obj :=
  <["id" := VScalar (SStr (id t))]>
  (<["stock" := VNum (stock t)]>
  (<["maxAmountPerUser" := VNum (maxAmountPerUser t)]>
  (VScalar <$> ticket_columns t))).

(** ** The datastore

    A ticket has one shoppable; a shoppable owns its consumables and its
    reservations, of every user. *)

Record StoredShoppable := {
  stored_shoppable : Shoppable;
  stored_consumables : list Consumable;
  stored_reservations : list ConsumableReservation;
}.

Record StoredTicket := {
  stored_ticket : Ticket;
  ticket_shoppable : StoredShoppable;
  ticket_event : value;
}.

Record PrismaClient := {
  ticket_table : list StoredTicket;
}.

(** ** Prisma filters *)

(** [{ OR: [...] }] and [{ AND: [...] }]. *)
Definition OR {R : Type} (fs : list (R → bool)) (r : R) : bool :=
  existsb (λ f, f r) fs.
Definition AND {R : Type} (fs : list (R → bool)) (r : R) : bool :=
  forallb (λ f, f r) fs.

(** Filters on a nullable column; a comparison never matches [NULL]. *)
Definition is_null {A : Type} (x : option A) : bool :=
  match x with Some _ => false | None => true end.
Definition not_null {A : Type} (x : option A) : bool :=
  match x with Some _ => true | None => false end.
Definition lt (bound : Z) (x : option Z) : bool :=
  match x with Some v => v <? bound | None => false end.
Definition gt (bound : Z) (x : option Z) : bool :=
  match x with Some v => bound <? v | None => false end.

(** The shape of [include] for a ticket: which of the shoppable's
    consumables and reservations are loaded, and which are counted. The
    event always comes with its tags; it is carried as one value. *)
Record TicketInclude := {
  consumables_where : Consumable → bool;
  reservations_where : ConsumableReservation → bool;
  count_consumables_where : Consumable → bool;
  count_reservations_where : ConsumableReservation → bool;
}.

(** What a query with that [include] returns for a ticket
    ([Prisma.TicketGetPayload]). *)
Record ShoppableCount := {
  count_consumables : Z;
  count_reservations : Z;
}.

Record ShoppablePayload := {
  shoppable_row : Shoppable;
  consumables : list Consumable;
  reservations : list ConsumableReservation;
  _count : ShoppableCount;
}.

Record TicketFromPrisma := {
  ticket_row : Ticket;
  shoppable : ShoppablePayload;
  event : value;
}.

Definition ShoppableCount_obj (c : ShoppableCount) : obj :=
  <["consumables" := VNum (count_consumables c)]>
  (<["reservations" := VNum (count_reservations c)]> ∅).

Definition Consumables_array (cs : list Consumable) : value :=
  VArray ((λ c, VObject (Consumable_obj c)) <$> cs).

Definition Reservations_array (rs : list ConsumableReservation) : value :=
  VArray ((λ r, VObject (ConsumableReservation_obj r)) <$> rs).

Definition ShoppablePayload_obj (s : ShoppablePayload) : obj :=
  <["consumables" := Consumables_array (consumables s)]>
  (<["reservations" := Reservations_array (reservations s)]>
  (<["_count" := VObject (ShoppableCount_obj (_count s))]>
  (Shoppable_obj (shoppable_row s)))).

Definition TicketFromPrisma_obj (t : TicketFromPrisma) : obj :=
  <["shoppable" := VObject (ShoppablePayload_obj (shoppable t))]>
  (<["event" := event t]>
  (Ticket_obj (ticket_row t))).

(** ** The query engine *)

Definition count {A : Type} (w : A → bool) (l : list A) : Z :=
  Z.of_nat (length (filter (λ x, w x) l)).

Definition load (inc : TicketInclude) (s : StoredTicket) : TicketFromPrisma :=
  let sh := ticket_shoppable s in
  {| ticket_row := stored_ticket s;
     shoppable :=
       {| shoppable_row := stored_shoppable sh;
          consumables :=
            filter (λ c, consumables_where inc c) (stored_consumables sh);
          reservations :=
            filter (λ r, reservations_where inc r) (stored_reservations sh);
          _count :=
            {| count_consumables :=
                 count (count_consumables_where inc) (stored_consumables sh);
               count_reservations :=
                 count (count_reservations_where inc) (stored_reservations sh) |} |};
     event := ticket_event s |}.

(** [orderBy: { shoppable: { availableFrom: "asc" } }]; among tickets
    with the same [availableFrom] the order is the datastore's. *)
Definition availableFrom_asc (a b : StoredTicket) : Prop :=
  availableFrom (stored_shoppable (ticket_shoppable a))
  ≤ availableFrom (stored_shoppable (ticket_shoppable b)).

#[local] Instance availableFrom_asc_dec a b : Decision (availableFrom_asc a b).
Proof. unfold availableFrom_asc. apply _. Defined.

Definition findFirst (prisma : PrismaClient) (where_ : StoredTicket → bool)
    (inc : TicketInclude) : option TicketFromPrisma :=
  load inc <$> List.find where_ (ticket_table prisma).

Definition selected (prisma : PrismaClient) (where_ : StoredTicket → bool)
    : list StoredTicket :=
  filter (λ s, where_ s) (ticket_table prisma).

Definition findMany (prisma : PrismaClient) (where_ : StoredTicket → bool)
    (inc : TicketInclude) : list TicketFromPrisma :=
  load inc <$> merge_sort availableFrom_asc (selected prisma where_).

(** ** [./types]

    The module is imported, not shown: its exports are taken as given. An
    identification is turned by [dbIdentification] into a [where]
    fragment; [owned_by id row] is that fragment, spread into a [where],
    matched against a row's columns. *)

Class ShopTypes := {
  ShopIdentification : Type;
  DBShopIdentification : Type;
  dbIdentification : ShopIdentification → DBShopIdentification;
  owned_by : DBShopIdentification → columns → bool;
  GRACE_PERIOD_WINDOW : Z;
}.

(** ** Days on the host's clock

    [tza] is the time zone of the host, ECMAScript's [LocalTZA]: the
    offset of local time from UTC, in milliseconds, at a UTC instant
    ([tza t true]) and at a local time ([tza t false]). *)
Definition MS_PER_DAY : Z := 86400000.

Definition LocalTime (tza : Z → bool → Z) (t : Z) : Z := t + tza t true.
Definition UTC (tza : Z → bool → Z) (t : Z) : Z := t - tza t false.

(** [dayjs(now).subtract(n, "days").toDate()]: dayjs sets the local day
    of the month [n] back ([Date.prototype.setDate]), which keeps the
    local time of day. *)
Definition dayjs_subtract_days (tza : Z → bool → Z) (now n : Z) : Z :=
  UTC tza (LocalTime tza now - n * MS_PER_DAY).

Section GetTickets.
Context `{ShopTypes}.

(** [now] is what [new Date()] reads when the descriptor is built. *)
Definition ticketIncludedFields (id_ : DBShopIdentification) (now : Z)
    : TicketInclude :=
  {| consumables_where c :=
       owned_by id_ (consumable_columns c)
       && OR [ (λ c, not_null (purchasedAt c));
               (λ c, gt now (expiresAt c));
               (λ c, is_null (expiresAt c)) ] c;
     reservations_where r := owned_by id_ (reservation_columns r);
     count_consumables_where c := not_null (purchasedAt c);
     count_reservations_where r := not_null (order r) |}.

Definition formatTicket (ticket : TicketFromPrisma) : obj :=
  let sh := shoppable ticket in
  let base : obj :=
    <["hasQueue" := VBool (0 <? count_reservations (_count sh))]>
    (<["ticketsLeft" :=
        VNum (Z.min (stock (ticket_row ticket) - count_consumables (_count sh)) 10)]>
    (<["userAlreadyHasMax" :=
        VBool (maxAmountPerUser (ticket_row ticket)
               <=? Z.of_nat (length (filter (λ c, js_neq_null (purchasedAt c))
                                            (consumables sh))))]>
    (<["isInUsersCart" :=
        VBool ((0 <? Z.of_nat (length (filter (λ c, js_not (purchasedAt c))
                                              (consumables sh))))
               || (0 <? Z.of_nat (length (reservations sh))))]>
    (<["gracePeriodEndsAt" :=
        VDate (availableFrom (shoppable_row sh) + GRACE_PERIOD_WINDOW)]>
    (<["userReservations" := Reservations_array (reservations sh)]>
    (<["userItemsInCart" := Consumables_array (consumables sh)]>
    (spread (ShoppablePayload_obj sh) (TicketFromPrisma_obj ticket)))))))) in
  (* do not show the following info to the client *)
  delete "_count"
    (delete "shoppable"
      (delete "reservations"
        (delete "consumables" base))).

(** [Promise<TicketWithMoreInfo | null>]: [None] is [null]. *)
Definition getTicket (prisma : PrismaClient) (id_ : string)
    (userId : ShopIdentification) (now : Z) : option obj :=
  let dbId := dbIdentification userId in
  let ticket :=
    findFirst prisma (λ t, String.eqb (id (stored_ticket t)) id_)
      (ticketIncludedFields dbId now) in
  match ticket with
  | None => None
  | Some ticket => Some (formatTicket ticket)
  end.

(** The host's clock as [getTickets] meets it: its three readings, in the
    order they are made - [dayjs()], [new Date()] in the [where],
    [new Date()] in [ticketIncludedFields] - and its time zone. *)
Record Clock := {
  now_dayjs : Z;
  now_where : Z;
  now_include : Z;
  LocalTZA : Z → bool → Z;
}.

Definition getTickets_where (now tenDaysAgo : Z) (t : StoredTicket) : bool :=
  AND [ OR [ (λ s, is_null (removedAt s)); (λ s, lt now (removedAt s)) ];
        (* show items which were available in the last 10 days *)
        OR [ (λ s, is_null (availableTo s)); (λ s, gt tenDaysAgo (availableTo s)) ] ]
      (stored_shoppable (ticket_shoppable t)).

Definition getTickets (prisma : PrismaClient)
    (identification : ShopIdentification) (clock : Clock) : list obj :=
  let dbId := dbIdentification identification in
  let tenDaysAgo :=
    dayjs_subtract_days (LocalTZA clock) (now_dayjs clock) 10 in
  let tickets :=
    findMany prisma (getTickets_where (now_where clock) tenDaysAgo)
      (ticketIncludedFields dbId (now_include clock)) in
  formatTicket <$> tickets.

End GetTickets.

(** ** Properties of projections, as predicates *)

(** None of the raw properties is left on the object. *)
Definition strips_raw_fields (out : obj) : Prop :=
  out !! "consumables" = None ∧ out !! "reservations" = None
  ∧ out !! "_count" = None ∧ out !! "shoppable" = None.

(** Some property of [out] holds the array [rows]. *)
Definition exposes (out : obj) (rows : value) : Prop :=
  ∃ k, out !! k = Some rows.

(** The payload [t] with other aggregate counts. *)
Definition with_count (t : TicketFromPrisma) (c : ShoppableCount)
    : TicketFromPrisma :=
  {| ticket_row := ticket_row t;
     shoppable :=
       {| shoppable_row := shoppable_row (shoppable t);
          consumables := consumables (shoppable t);
          reservations := reservations (shoppable t);
          _count := c |};
     event := event t |}.

(** The tickets [getTickets] selects from the table, before they are
    ordered, loaded and projected. *)
Definition listed (prisma : PrismaClient) (clock : Clock)
    (s : StoredTicket) : Prop :=
  s ∈ selected prisma
        (getTickets_where (now_where clock)
           (dayjs_subtract_days (LocalTZA clock) (now_dayjs clock) 10)).

(** [availableTo] is null or later than [tenDaysAgo]. *)
Definition recently_available (tenDaysAgo : Z) (s : StoredTicket) : Prop :=
  let to := availableTo (stored_shoppable (ticket_shoppable s)) in
  to = None ∨ ∃ d, to = Some d ∧ tenDaysAgo < d.

(** The consumables [ticketIncludedFields] loads for a requester: those
    the requester owns that are bought, or held in the cart until later
    than [now], or held without a term. *)
Definition in_requesters_items `{ShopTypes} (dbId : DBShopIdentification)
    (now : Z) (c : Consumable) : Prop :=
  owned_by dbId (consumable_columns c) = true
  ∧ (purchasedAt c ≠ None
     ∨ (∃ e, expiresAt c = Some e ∧ now < e)
     ∨ expiresAt c = None).

(** ** An example shop

    An instance of [./types] in which an identification is a member id
    and the [where] fragment is an equality on the [memberId] column. *)

Definition example_types : ShopTypes :=
  {| ShopIdentification := string;
     DBShopIdentification := columns;
     dbIdentification := λ member, {[ "memberId" := SStr member ]};
     owned_by := λ fragment row,
       bool_decide (map_Forall (λ k v, row !! k = Some v) fragment);
     GRACE_PERIOD_WINDOW := 60000 |}.

(** The identification of a member of the example shop. *)
Definition member (name : string) : @ShopIdentification example_types := name.

Definition example_now : Z := 1700000000000.

(** A host on UTC. *)
Definition example_clock : Clock :=
  {| now_dayjs := example_now;
     now_where := example_now + 1;
     now_include := example_now + 2;
     LocalTZA := λ _ _, 0 |}.

Definition example_consumable (member : string) (purchased expires : option Z)
    : Consumable :=
  {| purchasedAt := purchased;
     expiresAt := expires;
     consumable_columns := {[ "memberId" := SStr member ]} |}.

Definition example_reservation (member : string) (position : option Z)
    : ConsumableReservation :=
  {| order := position;
     reservation_columns := {[ "memberId" := SStr member ]} |}.

Definition example_ticket (name : string) (stock_ max_ : Z)
    (to removed : option Z) (cs : list Consumable)
    (rs : list ConsumableReservation) : StoredTicket :=
  {| stored_ticket :=
       {| id := name; stock := stock_; maxAmountPerUser := max_;
          ticket_columns := {[ "eventId" := SStr "gala" ]} |};
     ticket_shoppable :=
       {| stored_shoppable :=
            {| availableFrom := example_now - 30 * MS_PER_DAY;
               availableTo := to;
               removedAt := removed;
               shoppable_columns := {[ "title" := SStr name ]} |};
          stored_consumables := cs;
          stored_reservations := rs |};
     ticket_event := VObject {[ "tags" := VArray [] ]} |}.

Definition example_purchases : list Consumable :=
  [ example_consumable "alice" (Some (example_now - 5000)) None;
    example_consumable "alice" (Some (example_now - 4000)) None;
    example_consumable "bob" (Some (example_now - 3000)) None;
    example_consumable "bob" None (Some (example_now + 600000));
    example_consumable "carol" None (Some (example_now - 600000)) ].

Definition example_queue : list ConsumableReservation :=
  [ example_reservation "dave" (Some 1) ].

(** Six in stock, three bought, at most two each. *)
Definition ticket_open : StoredTicket :=
  example_ticket "open" 6 2 None None example_purchases example_queue.
(** A hundred in stock. *)
Definition ticket_plenty : StoredTicket :=
  example_ticket "plenty" 100 2 None None example_purchases [].
(** Two in stock, three bought. *)
Definition ticket_oversold : StoredTicket :=
  example_ticket "oversold" 2 2 None None example_purchases [].
(** Removed a day ago. *)
Definition ticket_removed : StoredTicket :=
  example_ticket "removed" 6 2 None (Some (example_now - MS_PER_DAY)) [] [].
(** To be removed in a day. *)
Definition ticket_leaving : StoredTicket :=
  example_ticket "leaving" 6 2 None (Some (example_now + MS_PER_DAY)) [] [].
(** Sale ended eleven days ago, five days ago, ends in a day. *)
Definition ticket_ended_11 : StoredTicket :=
  example_ticket "ended-11" 6 2 (Some (example_now - 11 * MS_PER_DAY)) None [] [].
Definition ticket_ended_5 : StoredTicket :=
  example_ticket "ended-5" 6 2 (Some (example_now - 5 * MS_PER_DAY)) None [] [].
Definition ticket_ending : StoredTicket :=
  example_ticket "ending" 6 2 (Some (example_now + MS_PER_DAY)) None [] [].

Definition example_prisma : PrismaClient :=
  {| ticket_table :=
       [ ticket_open; ticket_plenty; ticket_oversold;
         ticket_ended_11; ticket_ended_5; ticket_ending ] |}.

Definition removed_prisma : PrismaClient :=
  {| ticket_table := [ ticket_removed; ticket_leaving ] |}.

Definition example_include (name : string) : TicketInclude :=
  @ticketIncludedFields example_types
    (@dbIdentification example_types (member name)) (now_include example_clock).

(** The listing as the window of availability alone would have it: a
    ticket of the table is listed exactly when its [availableTo] is null
    or later than ten times twenty-four hours before the clock reading. *)
Definition listed_by_availableTo (prisma : PrismaClient) (clock : Clock)
    : Prop :=
  ∀ s, s ∈ ticket_table prisma →
       (listed prisma clock s
        ↔ recently_available (now_dayjs clock - 10 * MS_PER_DAY) s).

(** A host in Stockholm in the autumn of 2023: two hours ahead of UTC
    until 29 October, 01:00 UTC, one hour ahead from then on. *)
Definition stockholm (t : Z) (isUTC : bool) : Z :=
  let switch := 1698541200000 in
  if isUTC then (if t <? switch then 7200000 else 3600000)
  else (if t <? switch + 7200000 then 7200000 else 3600000).

(** 3 November 2023, 08:26:40 UTC: five days after the clocks went back. *)
Definition autumn_now : Z := 1699000000000.

Definition autumn_clock : Clock :=
  {| now_dayjs := autumn_now;
     now_where := autumn_now + 1;
     now_include := autumn_now + 2;
     LocalTZA := stockholm |}.

(** Sale ended ten days and half an hour before [autumn_now]. *)
Definition ticket_ended_10 : StoredTicket :=
  example_ticket "ended-10" 6 2
    (Some (autumn_now - 10 * MS_PER_DAY - 1800000)) None [] [].

Definition autumn_prisma : PrismaClient :=
  {| ticket_table := [ ticket_ended_10 ] |}.

(** What bob is handed for the two tickets, before projection. *)
Definition bobs_open_ticket : TicketFromPrisma :=
  load (example_include "bob") ticket_open.
Definition bobs_plenty_ticket : TicketFromPrisma :=
  load (example_include "bob") ticket_plenty.

(** ** Events with their tickets

    [getEventsWithTickets] reads the [event] table. An event owns its
    tags and its tickets; [$lib/events/events] is imported, not shown,
    and [BASIC_EVENT_FILTER] is taken as given. *)

Record Event := {
  startDatetime : Z;
  event_columns : columns;
}.

Record StoredEvent := {
  stored_event : Event;
  event_tags : list columns;
  event_tickets : list StoredTicket;
}.

(** A [Prisma.EventWhereInput]: conditions under their keys, all of which
    an event has to meet. *)
Abbreviation EventWhereInput := (gmap string (StoredEvent → bool)).

Definition event_matches (where_ : EventWhereInput) (e : StoredEvent) : bool :=
  forallb (λ condition, condition.2 e) (map_to_list where_).

(** A ticket loaded with [event: false], and an event loaded with its
    tickets and tags. *)
Record NestedTicket := {
  nested_row : Ticket;
  nested_shoppable : ShoppablePayload;
}.

Record EventFromPrisma := {
  event_row : Event;
  tags : list columns;
  tickets : list NestedTicket;
}.

Definition Event_obj (e : Event) : obj :=
  <["startDatetime" := VDate (startDatetime e)]> (VScalar <$> event_columns e).

Definition Tags_array (ts : list columns) : value :=
  VArray ((λ t : columns, VObject (VScalar <$> t)) <$> ts).

Definition NestedTicket_obj (t : NestedTicket) : obj :=
  <["shoppable" := VObject (ShoppablePayload_obj (nested_shoppable t))]>
  (Ticket_obj (nested_row t)).

Definition EventFromPrisma_obj (e : EventFromPrisma) : obj :=
  <["tickets" := VArray ((λ t, VObject (NestedTicket_obj t)) <$> tickets e)]>
  (<["tags" := Tags_array (tags e)]>
  (Event_obj (event_row e))).

(** [{ ...ticket, event: eventData }]. *)
Definition with_event (t : NestedTicket) (eventData : obj) : TicketFromPrisma :=
  {| ticket_row := nested_row t;
     shoppable := nested_shoppable t;
     event := VObject eventData |}.

Definition load_nested (inc : TicketInclude) (s : StoredTicket) : NestedTicket :=
  {| nested_row := ticket_row (load inc s);
     nested_shoppable := shoppable (load inc s) |}.

Definition load_event (inc : TicketInclude) (e : StoredEvent) : EventFromPrisma :=
  {| event_row := stored_event e;
     tags := event_tags e;
     tickets := load_nested inc <$> event_tickets e |}.

(** [orderBy: { startDatetime: "asc" }]. *)
Definition startDatetime_asc (a b : StoredEvent) : Prop :=
  startDatetime (stored_event a) ≤ startDatetime (stored_event b).

#[local] Instance startDatetime_asc_dec a b : Decision (startDatetime_asc a b).
Proof. unfold startDatetime_asc. apply _. Defined.

Definition selected_events (event_table : list StoredEvent)
    (where_ : EventWhereInput) : list StoredEvent :=
  filter (λ e, event_matches where_ e) event_table.

Definition event_findMany (event_table : list StoredEvent)
    (where_ : EventWhereInput) (inc : TicketInclude) : list EventFromPrisma :=
  load_event inc <$> merge_sort startDatetime_asc (selected_events event_table where_).

Section GetEventsWithTickets.
Context `{ShopTypes}.
Variable BASIC_EVENT_FILTER : bool → EventWhereInput.

(** What the callback of [events.map] makes of one event. *)
Definition formatEvent (event_ : EventFromPrisma) : obj :=
  <["tickets" :=
     VArray ((λ ticket,
        let eventData := delete "tickets" (EventFromPrisma_obj event_) in
        VObject (formatTicket (with_event ticket eventData)))
       <$> tickets event_)]>
  (EventFromPrisma_obj event_).

(** [event_table] is the table behind [prisma.event]; [now] is what
    [new Date()] reads in [ticketIncludedFields]. *)
Definition getEventsWithTickets (event_table : list StoredEvent)
    (identification : ShopIdentification) (filters : EventWhereInput)
    (now : Z) : list obj :=
  let dbId := dbIdentification identification in
  let events :=
    event_findMany event_table
      (filters ∪ BASIC_EVENT_FILTER true)
      (ticketIncludedFields dbId now) in
  formatEvent <$> events.

End GetEventsWithTickets.

(** The names [formatTicket] gives to what it derives, and the names it
    deletes. *)
Definition derived_fields : list string :=
  [ "userItemsInCart"; "userReservations"; "gracePeriodEndsAt";
    "isInUsersCart"; "userAlreadyHasMax"; "ticketsLeft"; "hasQueue" ].
Definition deleted_fields : list string :=
  [ "consumables"; "reservations"; "shoppable"; "_count" ].

(** The ticket row with its event, laid over the shoppable row. *)
Definition public_fields (t : TicketFromPrisma) : obj :=
  spread (Shoppable_obj (shoppable_row (shoppable t)))
    (<["event" := event t]> (Ticket_obj (ticket_row t))).

(** ** Example events

    A basic filter that keeps the events that are not removed; a gala
    with two tickets, one of them removed, a picnic without tickets that
    starts before the gala, and a removed event. *)

Definition example_basic_filter (_ : bool) : EventWhereInput :=
  {[ "removedAt" :=
       λ e, bool_decide (event_columns (stored_event e) !! "removedAt"
                         = Some SNull) ]}.

Definition example_event (title : string) (start : Z) (removed : scalar)
    (ts : list StoredTicket) : StoredEvent :=
  {| stored_event :=
       {| startDatetime := start;
          event_columns := {[ "title" := SStr title; "removedAt" := removed ]} |};
     event_tags := [ {[ "name" := SStr "party" ]} ];
     event_tickets := ts |}.

Definition event_gala : StoredEvent :=
  example_event "gala" (example_now + 10 * MS_PER_DAY) SNull
    [ ticket_open; ticket_removed ].
Definition event_picnic : StoredEvent :=
  example_event "picnic" (example_now + 3 * MS_PER_DAY) SNull [].
Definition event_cancelled : StoredEvent :=
  example_event "cancelled" (example_now + MS_PER_DAY) (SDate example_now) [].

Definition example_events : list StoredEvent :=
  [ event_gala; event_picnic; event_cancelled ].

(** A caller's filter under the key of the basic one: removed events
    only. *)
Definition removed_only : EventWhereInput :=
  {[ "removedAt" :=
       λ e, bool_decide (event_columns (stored_event e) !! "removedAt"
                         ≠ Some SNull) ]}.

(** * The page of a position

    A shallow embedding of
    [src/routes/(app)/positions/[id]/+page.server.ts]: [genitiveCase],
    [load] and the four [actions].

    The handlers are sequences of calls into libraries that are imported,
    not shown (superforms, the Prisma client, keycloak, the messages). A
    handler is modelled as the program of calls it makes: what a call
    answers is left to the environment, and what the handler does with the
    answer is the code's. *)

Module PositionPage.

(** [s.endsWith(suffix)]: some tail of [s] is [suffix]. *)
Fixpoint endsWith (s suffix : string) : bool :=
  String.eqb s suffix
  || match s with
     | EmptyString => false
     | String _ rest => endsWith rest suffix
     end.

(** [languageTag] is what [languageTag()] returns. *)
Definition genitiveCase (languageTag : string) (base : string) : string :=
  if String.eqb languageTag "sv" then
    if endsWith base "s" || endsWith base "x" then base (* Måns or Max => Måns and Max *)
    else base +:+ "s" (* Adam => Adams *)
  else
    if endsWith base "s" then base +:+ "'" (* Måns => Måns' *)
    else base +:+ "'s" (* Adam => Adam's *).

(** ** Forms *)

(** [z.infer] of the four schemas; [None] is [undefined] for an optional
    field and [null] for a nullable one. *)
Record UpdateData := {
  name : option string;
  description : option string;
  email : option string;
}.

Record AddMandateData := {
  memberId : string;
  startDate : Z;
  endDate : Z;
}.

Record UpdateMandateData := {
  updated_mandateId : string;
  updated_startDate : option Z;
  updated_endDate : option Z;
}.

Record DeleteMandateData := {
  deleted_mandateId : string;
}.

Inductive Schema :=
| updateSchema
| addManadateSchema
| updateMandateSchema
| deleteMandateSchema.

Definition SchemaData (schema : Schema) : Type :=
  match schema with
  | updateSchema => UpdateData
  | addManadateSchema => AddMandateData
  | updateMandateSchema => UpdateMandateData
  | deleteMandateSchema => DeleteMandateData
  end.

(** What [superValidate] resolves to, as far as the handlers read it. *)
Record Form (T : Type) := {
  valid : bool;
  data : T;
}.
Arguments valid {T} _.
Arguments data {T} _.

(** ** Rows *)

Record Member := {
  member_id : string;
  studentId : option string;
  firstName : option string;
}.

Record Mandate := {
  mandate_id : string;
  mandate_member : Member;
}.

Record Position := {
  position_columns : columns;
  mandates : list Mandate;
  emailAliases : list string;
}.

(** ** Calls *)

(** What [load] hands to [superValidate] in the place of a request: a
    position, a mandate, or nothing but the schema. *)
Inductive FormData :=
| no_data
| position_data (p : Position)
| mandate_data (m : Mandate).

(** [superValidate schema] is [superValidate(request, schema)];
    [superValidate_from d schema] is [superValidate(d, schema)], or
    [superValidate(schema)] for [no_data]. *)
Inductive Call :=
| superValidate (schema : Schema)
| superValidate_from (data_ : FormData) (schema : Schema)
| position_findUnique (id_ : string)
| position_update (id_ : string) (data_ : UpdateData)
| member_findUnique (id_ : string)
| member_findFirst (mandate : string)
| mandate_create (positionId memberId_ : string) (startDate_ endDate_ : Z)
| mandate_update (id_ positionId : string) (startDate_ endDate_ : option Z)
| mandate_delete (id_ positionId : string)
| keycloak_addMandate (studentId_ : option string) (positionId : string)
| keycloak_deleteMandate (studentId_ : option string) (positionId : string).

Definition Response (c : Call) : Type :=
  match c with
  | superValidate schema | superValidate_from _ schema =>
      Form (SchemaData schema)
  | position_findUnique _ => option Position
  | member_findUnique _ | member_findFirst _ => option Member
  | _ => unit
  end.

(** The rows that the writes resolve to are not read by the handlers:
    a write answers with [unit].

    A write to the datastore, and a call to keycloak. *)
Definition is_write (c : Call) : bool :=
  match c with
  | position_update _ _ | mandate_create _ _ _ _
  | mandate_update _ _ _ _ | mandate_delete _ _ => true
  | _ => false
  end.

Definition is_keycloak (c : Call) : bool :=
  match c with
  | keycloak_addMandate _ _ | keycloak_deleteMandate _ _ => true
  | _ => false
  end.

(** The position a write or a keycloak call names. *)
Definition position_of (c : Call) : option string :=
  match c with
  | position_update p _ | mandate_create p _ _ _
  | mandate_update _ p _ _ | mandate_delete _ p
  | keycloak_addMandate _ p | keycloak_deleteMandate _ p => Some p
  | _ => None
  end.

(** ** Programs *)

(** What a handler throws: a redirect with its flash message, an HTTP
    error, or whatever an awaited call was rejected with. *)
Inductive Thrown :=
| Redirect (location text type : string)
| HttpError (status : Z) (text : string)
| Rejection (c : Call).

(** [Await c k] is [await] of a call, [Start c k] a call whose promise is
    not awaited, as the two calls to keycloak and the four forms of
    [load] are. *)
Inductive Prog (R : Type) : Type :=
| Return (r : R)
| Throw (e : Thrown)
| Await (c : Call) (k : Response c → Prog R)
| Start (c : Call) (k : Prog R).
Arguments Return {R} _.
Arguments Throw {R} _.
Arguments Await {R} _ _.
Arguments Start {R} _ _.

(** What a handler returns: the helper called and its arguments. *)
Inductive ActionResult (T : Type) :=
| fail (status : Z) (form : Form T)
| message (form : Form T) (text type : string) (status : option Z)
| setError (form : Form T) (path text : string).
Arguments fail {T} _ _.
Arguments message {T} _ _ _ _.
Arguments setError {T} _ _ _.

Definition is_success {T : Type} (r : ActionResult T) : bool :=
  match r with
  | message _ _ type None => String.eqb type "success"
  | _ => false
  end.

(** ** Runs *)

Inductive Event :=
| Returned (c : Call) (answer : Response c)
| Rejected (c : Call)
| Started (c : Call).

Definition call_of (e : Event) : Call :=
  match e with Returned c _ | Rejected c | Started c => c end.

Definition has_returned (e : Event) : bool :=
  match e with Returned _ _ => true | _ => false end.

(** [runs p trace result]: the handler [p] can make the calls of [trace],
    with the answers recorded there, and end with [result]. *)
Fixpoint runs {R : Type} (p : Prog R) (trace : list Event)
    (result : Thrown + R) : Prop :=
  match p with
  | Return r => trace = [] ∧ result = inr r
  | Throw e => trace = [] ∧ result = inl e
  | Await c k =>
      (trace = [Rejected c] ∧ result = inl (Rejection c))
      ∨ (∃ answer rest, trace = Returned c answer :: rest
                        ∧ runs (k answer) rest result)
  | Start c k => ∃ rest, trace = Started c :: rest ∧ runs k rest result
  end.

(** The run against an environment that answers each call, or rejects it
    with [None]. *)
Fixpoint exec {R : Type} (env : ∀ c, option (Response c)) (p : Prog R)
    : list Event * (Thrown + R) :=
  match p with
  | Return r => ([], inr r)
  | Throw e => ([], inl e)
  | Await c k =>
      match env c with
      | None => ([Rejected c], inl (Rejection c))
      | Some answer =>
          let '(rest, result) := exec env (k answer) in
          (Returned c answer :: rest, result)
      end
  | Start c k =>
      let '(rest, result) := exec env k in (Started c :: rest, result)
  end.

(** ** [$paraglide/messages] *)

Class Messages := {
  positions_errors_positionNotFound : string;
  positions_positionUpdated : string;
  positions_errors_memberNotFound : string;
  positions_newMandateGivenTo : string → string;
  positions_theMember : string;
  positions_errors_mandateNotFound : string;
  positions_mandateUpdated : string → string;
  positions_mandateRemoved : string → string;
}.

Section Handlers.
Context `{Messages}.
Variable languageTag : string.

(** [a ?? b]. *)
Definition nullish (a : option string) (b : string) : string :=
  match a with Some x => x | None => b end.

(** What [load] returns. The four forms are promises that [load] does
    not await: each is held as the call it was started with. *)
Record LoadData := {
  updateForm : Call;
  addMandateForm : Call;
  updateMandateForm : Call;
  deleteMandateForm : Call;
  position : Position;
  loaded_mandates : list Mandate;
}.

(** [editMandate] is [url.searchParams.get("editMandate")]. *)
Definition load (params_id : string) (editMandate : option string)
    : Prog LoadData :=
  Await (position_findUnique params_id) (λ position_,
  match position_ with
  | None => Throw (HttpError 404 positions_errors_positionNotFound)
  | Some position_ =>
      let editedMandateID := editMandate in
      let editedMandate :=
        find (λ m, bool_decide (Some (mandate_id m) = editedMandateID))
          (mandates position_) in
      let updateForm_ := superValidate_from (position_data position_) updateSchema in
      let addMandateForm_ := superValidate_from no_data addManadateSchema in
      let updateMandateForm_ :=
        match editedMandate with
        | Some editedMandate =>
            superValidate_from (mandate_data editedMandate) updateMandateSchema
        | None => superValidate_from no_data updateMandateSchema
        end in
      let deleteMandateForm_ := superValidate_from no_data deleteMandateSchema in
      Start updateForm_
      (Start addMandateForm_
      (Start updateMandateForm_
      (Start deleteMandateForm_
      (Return {| updateForm := updateForm_;
                 addMandateForm := addMandateForm_;
                 updateMandateForm := updateMandateForm_;
                 deleteMandateForm := deleteMandateForm_;
                 position := position_;
                 loaded_mandates := mandates position_ |}))))
  end).

Definition update (params_id : string) : Prog (ActionResult UpdateData) :=
  Await (superValidate updateSchema) (λ form,
  if negb (valid form) then Return (fail 400 form) else
  Await (position_update params_id
           {| name := name (data form);
              description := description (data form);
              email := email (data form) |}) (λ _,
  Return (message form positions_positionUpdated "success" None))).

Definition addMandate (params_id : string) : Prog (ActionResult AddMandateData) :=
  Await (superValidate addManadateSchema) (λ form,
  if negb (valid form) then Return (fail 400 form) else
  Await (member_findUnique (memberId (data form))) (λ member,
  match member with
  | None => Return (setError form "memberId" positions_errors_memberNotFound)
  | Some member =>
      Await (mandate_create params_id (memberId (data form))
               (startDate (data form)) (endDate (data form))) (λ _,
      Start (keycloak_addMandate (studentId member) params_id)
      (Return (message form
                 (positions_newMandateGivenTo
                    (nullish (firstName member) positions_theMember))
                 "success" None)))
  end)).

Definition updateMandate (params_id : string)
    : Prog (ActionResult UpdateMandateData) :=
  Await (superValidate updateMandateSchema) (λ form,
  if negb (valid form) then Return (fail 400 form) else
  Await (member_findFirst (updated_mandateId (data form))) (λ member,
  match member with
  | None =>
      Return (message form positions_errors_mandateNotFound "error" (Some 400))
  | Some member =>
      Await (mandate_update (updated_mandateId (data form)) params_id
               (updated_startDate (data form)) (updated_endDate (data form))) (λ _,
      Throw (Redirect ("/positions/" +:+ params_id)
               (positions_mandateUpdated
                  (genitiveCase languageTag
                     (nullish (firstName member) positions_theMember)))
               "success"))
  end)).

Definition deleteMandate (params_id : string)
    : Prog (ActionResult DeleteMandateData) :=
  Await (superValidate deleteMandateSchema) (λ form,
  if negb (valid form) then Return (fail 400 form) else
  Await (member_findFirst (deleted_mandateId (data form))) (λ member,
  match member with
  | None =>
      Return (message form positions_errors_mandateNotFound "error" (Some 400))
  | Some member =>
      Await (mandate_delete (deleted_mandateId (data form)) params_id) (λ _,
      Start (keycloak_deleteMandate (studentId member) params_id)
      (Return (message form
                 (positions_mandateRemoved
                    (genitiveCase languageTag
                       (nullish (firstName member) positions_theMember)))
                 "success" None)))
  end)).

End Handlers.

(** ** Reading a run *)

Definition has_started (e : Event) : bool :=
  match e with Started _ => true | _ => false end.

(** The calls of a run, those that returned, those left running. *)
Definition calls (trace : list Event) : list Call := call_of <$> trace.
Definition returned_calls (trace : list Event) : list Call :=
  call_of <$> filter (λ e, has_returned e) trace.
Definition started_calls (trace : list Event) : list Call :=
  call_of <$> filter (λ e, has_started e) trace.

(** Whether the form that [superValidate] returned was valid, and the
    member that a lookup returned. *)
Definition validation (e : Event) : option bool :=
  match e with
  | Returned c answer =>
      match c return Response c → option bool with
      | superValidate _ => λ form, Some (valid form)
      | _ => λ _, None
      end answer
  | _ => None
  end.

Definition member_answer (e : Event) : option (option Member) :=
  match e with
  | Returned c answer =>
      match c return Response c → option (option Member) with
      | member_findUnique _ | member_findFirst _ => λ member, Some member
      | _ => λ _, None
      end answer
  | _ => None
  end.

Definition position_answer (e : Event) : option (option Position) :=
  match e with
  | Returned c answer =>
      match c return Response c → option (option Position) with
      | position_findUnique _ => λ position_, Some position_
      | _ => λ _, None
      end answer
  | _ => None
  end.

Definition validations (trace : list Event) : list bool :=
  omap validation trace.
Definition position_answers (trace : list Event) : list (option Position) :=
  omap position_answer trace.
Definition member_answers (trace : list Event) : list (option Member) :=
  omap member_answer trace.

(** [P] holds of every run of [p]. *)
Definition always {R : Type} (p : Prog R)
    (P : list Event → Thrown + R → Prop) : Prop :=
  ∀ trace result, runs p trace result → P trace result.

(** No write to the datastore and no call to keycloak. *)
Definition quiet (trace : list Event) : Prop :=
  Forall (λ c, is_write c = false ∧ is_keycloak c = false) (calls trace).

(** Keycloak is called exactly when a write has returned. *)
Definition in_step (trace : list Event) : Prop :=
  (∃ c, c ∈ returned_calls trace ∧ is_write c = true)
  ↔ (∃ c, c ∈ started_calls trace ∧ is_keycloak c = true).

(** ** An example environment *)

Definition example_messages : Messages :=
  {| positions_errors_positionNotFound := "Position not found";
     positions_positionUpdated := "Position updated";
     positions_errors_memberNotFound := "Member not found";
     positions_newMandateGivenTo := λ name_, "New mandate given to " +:+ name_;
     positions_theMember := "the member";
     positions_errors_mandateNotFound := "Mandate not found";
     positions_mandateUpdated := λ names, names +:+ " mandate updated";
     positions_mandateRemoved := λ names, names +:+ " mandate removed" |}.

Definition adam : Member :=
  {| member_id := "adam"; studentId := Some "ad1234am-s"; firstName := Some "Adam" |}.

Definition chair : Position :=
  {| position_columns := {[ "name" := SStr "Chair" ]};
     mandates := [ {| mandate_id := "mandate-1"; mandate_member := adam |} ];
     emailAliases := [] |}.

(** Forms are valid or not as [valid_] says; adam is the only member,
    "mandate-1" his only mandate, "chair" the only position; every write
    goes through. *)
Definition example_env (valid_ : bool) (c : Call) : option (Response c) :=
  match c return option (Response c) with
  | superValidate schema =>
      Some match schema return Form (SchemaData schema) with
           | updateSchema =>
               {| valid := valid_;
                  data := {| name := Some "Chair"; description := None;
                             email := None |} |}
           | addManadateSchema =>
               {| valid := valid_;
                  data := {| memberId := "adam"; startDate := 1700000000000;
                             endDate := 1703980800000 |} |}
           | updateMandateSchema =>
               {| valid := valid_;
                  data := {| updated_mandateId := "mandate-1";
                             updated_startDate := None;
                             updated_endDate := Some 1703980800000 |} |}
           | deleteMandateSchema =>
               {| valid := valid_;
                  data := {| deleted_mandateId := "mandate-1" |} |}
           end
  | superValidate_from _ schema =>
      Some match schema return Form (SchemaData schema) with
           | updateSchema =>
               {| valid := true;
                  data := {| name := Some "Chair"; description := None;
                             email := None |} |}
           | addManadateSchema =>
               {| valid := true;
                  data := {| memberId := ""; startDate := 1700000000000;
                             endDate := 1703980800000 |} |}
           | updateMandateSchema =>
               {| valid := true;
                  data := {| updated_mandateId := "";
                             updated_startDate := None;
                             updated_endDate := None |} |}
           | deleteMandateSchema =>
               {| valid := true; data := {| deleted_mandateId := "" |} |}
           end
  | position_findUnique p =>
      Some (if String.eqb p "chair" then Some chair else None)
  | member_findUnique m =>
      Some (if String.eqb m "adam" then Some adam else None)
  | member_findFirst mandate =>
      Some (if String.eqb mandate "mandate-1" then Some adam else None)
  | position_update _ _ | mandate_create _ _ _ _
  | mandate_update _ _ _ _ | mandate_delete _ _
  | keycloak_addMandate _ _ | keycloak_deleteMandate _ _ => Some tt
  end.

(** The same, with no member and no mandate to be found. *)
Definition empty_env (c : Call) : option (Response c) :=
  match c return option (Response c) with
  | member_findUnique _ | member_findFirst _ => Some None
  | position_findUnique _ => Some None
  | c => example_env true c
  end.

End PositionPage.

(** * Properties *)

(** ** Filters and counts *)

Lemma not_null_true {A : Type} (x : option A) : not_null x = true ↔ x ≠ None.
Proof. destruct x; simpl; split; congruence. Qed.

Lemma is_null_true {A : Type} (x : option A) : is_null x = true ↔ x = None.
Proof. destruct x; simpl; split; congruence. Qed.

Lemma lt_true (bound : Z) (x : option Z) :
  lt bound x = true ↔ ∃ v, x = Some v ∧ v < bound.
Proof.
  destruct x as [v|]; simpl.
  - rewrite Z.ltb_lt. split; [eauto | intros (w & Hw & ?); congruence].
  - split; [discriminate | intros (w & Hw & ?); discriminate].
Qed.

Lemma gt_true (bound : Z) (x : option Z) :
  gt bound x = true ↔ ∃ v, x = Some v ∧ bound < v.
Proof.
  destruct x as [v|]; simpl.
  - rewrite Z.ltb_lt. split; [eauto | intros (w & Hw & ?); congruence].
  - split; [discriminate | intros (w & Hw & ?); discriminate].
Qed.

Lemma js_not_true (d : option Z) : js_not d = true ↔ d = None.
Proof. destruct d; simpl; split; congruence. Qed.

Lemma js_neq_null_true (d : option Z) : js_neq_null d = true ↔ d ≠ None.
Proof. destruct d; simpl; split; congruence. Qed.

(** [xs.filter(p).length > 0] says that some element satisfies [p]. *)
Lemma filter_length_pos {A : Type} (p : A → bool) (l : list A) :
  (0 <? Z.of_nat (length (filter (λ x, p x) l))) = true
  ↔ ∃ x, x ∈ l ∧ p x = true.
Proof.
  rewrite Z.ltb_lt. split.
  - destruct (filter (λ x, p x) l) as [|x l'] eqn:E; simpl; [lia|].
    intros _. exists x.
    assert (Hx : x ∈ filter (λ x, p x) l) by (rewrite E; left).
    apply list_elem_of_filter in Hx as [Hp Hx]. split; [done|].
    by apply Is_true_true.
  - intros (x & Hx & Hp).
    assert (Hin : x ∈ filter (λ x, p x) l).
    { apply list_elem_of_filter. split; [by apply Is_true_true | done]. }
    destruct (filter (λ x, p x) l); [by apply elem_of_nil in Hin | simpl; lia].
Qed.

Lemma length_pos_elem {A : Type} (l : list A) :
  (0 <? Z.of_nat (length l)) = true ↔ ∃ x, x ∈ l.
Proof.
  rewrite Z.ltb_lt. destruct l as [|x l]; simpl; split.
  - lia.
  - intros (x & Hx). by apply elem_of_nil in Hx.
  - intros _. exists x. left.
  - lia.
Qed.

(** ** What [ticketIncludedFields] loads *)

Section Include.
Context `{ShopTypes}.
Implicit Types (dbId : DBShopIdentification) (s : StoredTicket).

Lemma consumables_where_true dbId now c :
  consumables_where (ticketIncludedFields dbId now) c = true
  ↔ in_requesters_items dbId now c.
Proof.
  unfold in_requesters_items. simpl.
  rewrite andb_true_iff, !orb_true_iff, not_null_true, gt_true, is_null_true.
  intuition discriminate.
Qed.

Lemma load_consumables dbId now s c :
  c ∈ consumables (shoppable (load (ticketIncludedFields dbId now) s))
  ↔ c ∈ stored_consumables (ticket_shoppable s)
    ∧ in_requesters_items dbId now c.
Proof.
  unfold load; cbn [shoppable consumables].
  rewrite list_elem_of_filter, Is_true_true, consumables_where_true.
  tauto.
Qed.

Lemma load_reservations dbId now s r :
  r ∈ reservations (shoppable (load (ticketIncludedFields dbId now) s))
  ↔ r ∈ stored_reservations (ticket_shoppable s)
    ∧ owned_by dbId (reservation_columns r) = true.
Proof.
  unfold load; cbn [shoppable reservations].
  rewrite list_elem_of_filter, Is_true_true. simpl. tauto.
Qed.

Lemma load_count_consumables dbId now s :
  count_consumables (_count (shoppable (load (ticketIncludedFields dbId now) s)))
  = Z.of_nat (length (filter (λ c, purchasedAt c ≠ None)
                             (stored_consumables (ticket_shoppable s)))).
Proof.
  unfold load, count; cbn [shoppable _count count_consumables]. do 2 f_equal.
  apply list_filter_iff. intros c. simpl.
  by rewrite Is_true_true, not_null_true.
Qed.

End Include.

(** ** The projection, property by property *)

Section Projection.
Context `{ShopTypes}.
Implicit Types (t : TicketFromPrisma) (s : StoredTicket).

Ltac project := unfold formatTicket; simplify_map_eq; reflexivity.

Lemma formatTicket_ticketsLeft t :
  formatTicket t !! "ticketsLeft"
  = Some (VNum (Z.min (stock (ticket_row t)
                       - count_consumables (_count (shoppable t))) 10)).
Proof. project. Qed.

Lemma formatTicket_isInUsersCart t :
  formatTicket t !! "isInUsersCart"
  = Some (VBool
      ((0 <? Z.of_nat (length (filter (λ c, js_not (purchasedAt c))
                                      (consumables (shoppable t)))))
       || (0 <? Z.of_nat (length (reservations (shoppable t)))))).
Proof. project. Qed.

Lemma formatTicket_userAlreadyHasMax t :
  formatTicket t !! "userAlreadyHasMax"
  = Some (VBool
      (maxAmountPerUser (ticket_row t)
       <=? Z.of_nat (length (filter (λ c, js_neq_null (purchasedAt c))
                                    (consumables (shoppable t)))))).
Proof. project. Qed.

Lemma formatTicket_hasQueue t :
  formatTicket t !! "hasQueue"
  = Some (VBool (0 <? count_reservations (_count (shoppable t)))).
Proof. project. Qed.

(** The four [delete]s leave none of the raw properties behind, whatever
    columns the ticket and its shoppable bring along. *)
Lemma formatTicket_deletes t : strips_raw_fields (formatTicket t).
Proof. repeat split; project. Qed.

(** Outside the two aggregate-dependent properties and the deleted ones,
    the projection does not look at [_count]. *)
Lemma formatTicket_with_count t c :
  Z.min (stock (ticket_row t) - count_consumables c) 10
  = Z.min (stock (ticket_row t) - count_consumables (_count (shoppable t))) 10 →
  (0 <? count_reservations c) = (0 <? count_reservations (_count (shoppable t))) →
  formatTicket (with_count t c) = formatTicket t.
Proof.
  intros Hleft Hqueue. apply map_eq. intros k.
  unfold formatTicket, with_count, spread, TicketFromPrisma_obj,
    ShoppablePayload_obj; cbn [ticket_row shoppable shoppable_row consumables
    reservations _count event].
  rewrite Hleft, Hqueue.
  rewrite !lookup_delete, !lookup_insert.
  repeat case_decide; try reflexivity.
  rewrite !lookup_union, !lookup_insert.
  repeat case_decide; try reflexivity; congruence.
Qed.

(** C8. For every ticket handed to [formatTicket], [gracePeriodEndsAt] is
    the date [availableFrom] of its shoppable plus [GRACE_PERIOD_WINDOW]
    milliseconds, exactly. *)
Theorem formatTicket_gracePeriodEndsAt t :
  formatTicket t !! "gracePeriodEndsAt"
  = Some (VDate (availableFrom (shoppable_row (shoppable t))
                 + GRACE_PERIOD_WINDOW)).
Proof. project. Qed.

(** C10. For every ticket handed to [formatTicket], the projection holds
    the requester's own consumables under [userItemsInCart] and the
    requester's own reservations under [userReservations], the very
    arrays that were deleted under their raw names; and for a ticket
    loaded with [ticketIncludedFields] those consumables are the ones of
    the shoppable that pass the requester's filter, and those
    reservations are the ones of the shoppable that the requester owns. *)
Theorem formatTicket_user_lists t :
  formatTicket t !! "userItemsInCart"
    = Some (Consumables_array (consumables (shoppable t)))
  ∧ formatTicket t !! "userReservations"
    = Some (Reservations_array (reservations (shoppable t)))
  ∧ formatTicket t !! "consumables" = None
  ∧ formatTicket t !! "reservations" = None
  ∧ (∀ dbId now s c,
       c ∈ consumables (shoppable (load (ticketIncludedFields dbId now) s))
       ↔ c ∈ stored_consumables (ticket_shoppable s)
         ∧ in_requesters_items dbId now c)
  ∧ (∀ dbId now s r,
       r ∈ reservations (shoppable (load (ticketIncludedFields dbId now) s))
       ↔ r ∈ stored_reservations (ticket_shoppable s)
         ∧ owned_by dbId (reservation_columns r) = true).
Proof.
  split; [project|]. split; [project|]. split; [project|]. split; [project|].
  split.
  - intros dbId now s c. apply load_consumables.
  - intros dbId now s r. apply load_reservations.
Qed.

(** C3, as amended. For every ticket handed to [formatTicket], the
    projection has no property named [consumables], [reservations],
    [_count] or [shoppable]; and the aggregate counts reach it through
    [ticketsLeft] and [hasQueue] alone: other counts that give the same
    capped [ticketsLeft] and the same [hasQueue] give the same projection. *)
Theorem formatTicket_strips_raw_fields t c :
  Z.min (stock (ticket_row t) - count_consumables c) 10
  = Z.min (stock (ticket_row t) - count_consumables (_count (shoppable t))) 10 →
  (0 <? count_reservations c) = (0 <? count_reservations (_count (shoppable t))) →
  strips_raw_fields (formatTicket t)
  ∧ formatTicket (with_count t c) = formatTicket t.
Proof.
  intros Hleft Hqueue. split.
  - apply formatTicket_deletes.
  - by apply formatTicket_with_count.
Qed.

End Projection.

(** ** Projections of loaded tickets *)

Section Loaded.
Context `{ShopTypes}.
Implicit Types (t : TicketFromPrisma) (s : StoredTicket)
  (dbId : DBShopIdentification).

(** Among the loaded consumables, the bought ones are the requester's
    bought ones: a bought consumable always passes the [OR]. *)
Lemma load_purchased dbId now s :
  filter (λ c, js_neq_null (purchasedAt c))
    (consumables (shoppable (load (ticketIncludedFields dbId now) s)))
  = filter (λ c, owned_by dbId (consumable_columns c) = true
                 ∧ purchasedAt c ≠ None)
      (stored_consumables (ticket_shoppable s)).
Proof.
  unfold load; cbn [shoppable consumables].
  rewrite list_filter_filter. apply list_filter_iff. intros c.
  rewrite !Is_true_true, js_neq_null_true, consumables_where_true.
  unfold in_requesters_items. tauto.
Qed.

(** C2. For every ticket loaded with [ticketIncludedFields] and projected,
    [ticketsLeft] is the minimum of 10 and the stock less the number of
    bought consumables of the shoppable, whoever owns them: at most 10,
    exactly 10 when ten or more remain, and the remaining number itself
    when fewer remain, zero and negative numbers included. *)
Theorem ticketsLeft_capped dbId now s :
  let purchased :=
    Z.of_nat (length (filter (λ c, purchasedAt c ≠ None)
                             (stored_consumables (ticket_shoppable s)))) in
  let remaining := stock (stored_ticket s) - purchased in
  ∃ n, formatTicket (load (ticketIncludedFields dbId now) s) !! "ticketsLeft"
       = Some (VNum n)
    ∧ n = Z.min remaining 10
    ∧ n ≤ 10
    ∧ n = (if 10 <=? remaining then 10 else remaining).
Proof.
  intros purchased remaining. exists (Z.min remaining 10).
  split; [|split; [reflexivity|split; [lia|]]].
  - rewrite formatTicket_ticketsLeft, load_count_consumables. reflexivity.
  - destruct (Z.leb_spec 10 remaining); lia.
Qed.

(** The disjunction computed for [isInUsersCart]. *)
Lemma in_cart_true (cs : list Consumable) (rs : list ConsumableReservation) :
  (0 <? Z.of_nat (length (filter (λ c, js_not (purchasedAt c)) cs)))
  || (0 <? Z.of_nat (length rs)) = true
  ↔ (∃ c, c ∈ cs ∧ purchasedAt c = None) ∨ (∃ r, r ∈ rs).
Proof.
  rewrite orb_true_iff, filter_length_pos, length_pos_elem.
  by setoid_rewrite js_not_true.
Qed.

(** C4. For every ticket handed to [formatTicket], [isInUsersCart] is
    true exactly when the consumables it was handed include one that is
    not bought, or it was handed a reservation; and for a ticket loaded
    with [ticketIncludedFields], the consumables handed over are the
    requester's that are bought, or not yet expired, or without expiry,
    and the reservations handed over are the requester's. *)
Theorem isInUsersCart_iff t :
  ∃ b, formatTicket t !! "isInUsersCart" = Some (VBool b)
    ∧ (b = true ↔
         (∃ c, c ∈ consumables (shoppable t) ∧ purchasedAt c = None)
         ∨ (∃ r, r ∈ reservations (shoppable t)))
    ∧ ∀ dbId now s,
        let loaded := shoppable (load (ticketIncludedFields dbId now) s) in
        (∀ c, c ∈ consumables loaded
              ↔ c ∈ stored_consumables (ticket_shoppable s)
                ∧ owned_by dbId (consumable_columns c) = true
                ∧ (purchasedAt c ≠ None
                   ∨ (∃ e, expiresAt c = Some e ∧ now < e)
                   ∨ expiresAt c = None))
        ∧ (∀ r, r ∈ reservations loaded
                ↔ r ∈ stored_reservations (ticket_shoppable s)
                  ∧ owned_by dbId (reservation_columns r) = true).
Proof.
  eexists. split; [apply formatTicket_isInUsersCart|]. split.
  - apply in_cart_true.
  - intros dbId now s loaded. split.
    + intros c. apply load_consumables.
    + intros r. apply load_reservations.
Qed.

Lemma formatTicket_isInUsersCart_true t :
  formatTicket t !! "isInUsersCart" = Some (VBool true)
  ↔ (∃ c, c ∈ consumables (shoppable t) ∧ purchasedAt c = None)
    ∨ (∃ r, r ∈ reservations (shoppable t)).
Proof.
  rewrite formatTicket_isInUsersCart, <- in_cart_true. unfold VBool.
  split; [by intros [= ->] | by intros ->].
Qed.

(** The same, read off the datastore. *)
Lemma loaded_isInUsersCart dbId now s :
  formatTicket (load (ticketIncludedFields dbId now) s) !! "isInUsersCart"
    = Some (VBool true)
  ↔ (∃ c, c ∈ stored_consumables (ticket_shoppable s)
          ∧ owned_by dbId (consumable_columns c) = true
          ∧ purchasedAt c = None
          ∧ ((∃ e, expiresAt c = Some e ∧ now < e) ∨ expiresAt c = None))
    ∨ (∃ r, r ∈ stored_reservations (ticket_shoppable s)
            ∧ owned_by dbId (reservation_columns r) = true).
Proof.
  rewrite formatTicket_isInUsersCart_true.
  setoid_rewrite load_consumables. setoid_rewrite load_reservations.
  unfold in_requesters_items. split.
  - intros [(c & (Hc & Ho & Hw) & Hp) | (r & Hr)]; [left | by right; eauto].
    exists c. intuition congruence.
  - intros [(c & Hc & Ho & Hp & Hw) | (r & Hr)]; [left | by right; eauto].
    exists c. intuition.
Qed.

(** C5. For every ticket loaded with [ticketIncludedFields] and projected,
    [userAlreadyHasMax] is true exactly when [maxAmountPerUser] is at most
    the number of the shoppable's consumables that the requester owns and
    has bought. *)
Theorem userAlreadyHasMax_iff dbId now s :
  ∃ b, formatTicket (load (ticketIncludedFields dbId now) s) !! "userAlreadyHasMax"
       = Some (VBool b)
    ∧ (b = true ↔
         maxAmountPerUser (stored_ticket s)
         ≤ Z.of_nat (length (filter
              (λ c, owned_by dbId (consumable_columns c) = true
                    ∧ purchasedAt c ≠ None)
              (stored_consumables (ticket_shoppable s))))).
Proof.
  eexists. split; [apply formatTicket_userAlreadyHasMax|].
  rewrite load_purchased. apply Z.leb_le.
Qed.

(** C6. For every ticket loaded with [ticketIncludedFields] and projected,
    [hasQueue] is true exactly when some reservation of the shoppable, of
    any owner, has an [order]; the requester plays no part in it. *)
Theorem hasQueue_iff dbId now s :
  ∃ b, formatTicket (load (ticketIncludedFields dbId now) s) !! "hasQueue"
       = Some (VBool b)
    ∧ (b = true ↔
         ∃ r, r ∈ stored_reservations (ticket_shoppable s) ∧ order r ≠ None)
    ∧ ∀ dbId' now',
        formatTicket (load (ticketIncludedFields dbId' now') s) !! "hasQueue"
        = Some (VBool b).
Proof.
  eexists. split; [apply formatTicket_hasQueue|]. split.
  - unfold load, count; cbn [shoppable _count count_reservations
      count_reservations_where ticketIncludedFields].
    rewrite filter_length_pos. by setoid_rewrite not_null_true.
  - intros dbId' now'. rewrite formatTicket_hasQueue. reflexivity.
Qed.

End Loaded.

(** ** The two queries *)

Section Queries.
Context `{ShopTypes}.
Implicit Types (s : StoredTicket) (prisma : PrismaClient) (clock : Clock).

Lemma getTickets_where_true now tenDaysAgo s :
  getTickets_where now tenDaysAgo s = true
  ↔ (removedAt (stored_shoppable (ticket_shoppable s)) = None
     ∨ ∃ d, removedAt (stored_shoppable (ticket_shoppable s)) = Some d ∧ d < now)
    ∧ recently_available tenDaysAgo s.
Proof.
  unfold getTickets_where, recently_available, AND, OR. simpl.
  rewrite !andb_true_iff, !orb_true_iff, !is_null_true, lt_true, gt_true.
  intuition discriminate.
Qed.

Lemma listed_iff prisma clock s :
  listed prisma clock s
  ↔ s ∈ ticket_table prisma
    ∧ (removedAt (stored_shoppable (ticket_shoppable s)) = None
       ∨ ∃ d, removedAt (stored_shoppable (ticket_shoppable s)) = Some d
              ∧ d < now_where clock)
    ∧ recently_available
        (dayjs_subtract_days (LocalTZA clock) (now_dayjs clock) 10) s.
Proof.
  unfold listed, selected.
  rewrite list_elem_of_filter, Is_true_true, getTickets_where_true.
  tauto.
Qed.

(** Days on the local calendar are days of twenty-four hours up to the
    changes of the zone's offset: within [hi - lo] of them when the
    offset stays between [lo] and [hi], and exactly them when the offset
    is fixed. *)
Lemma dayjs_subtract_days_bounds (tza : Z → bool → Z) (lo hi now n : Z) :
  (∀ t isUTC, lo ≤ tza t isUTC ≤ hi) →
  now - n * MS_PER_DAY - (hi - lo)
  ≤ dayjs_subtract_days tza now n
  ≤ now - n * MS_PER_DAY + (hi - lo).
Proof.
  intros Hzone. unfold dayjs_subtract_days, UTC, LocalTime.
  pose proof (Hzone now true).
  pose proof (Hzone (now + tza now true - n * MS_PER_DAY) false).
  lia.
Qed.

(** Ordering moves the selected tickets around and loses none. *)
Lemma elem_of_getTickets prisma identification clock (out : obj) :
  out ∈ getTickets prisma identification clock
  ↔ ∃ s, listed prisma clock s
         ∧ out = formatTicket
                   (load (ticketIncludedFields (dbIdentification identification)
                            (now_include clock)) s).
Proof.
  unfold getTickets, findMany, listed.
  rewrite <- list_fmap_compose, list_elem_of_fmap.
  setoid_rewrite merge_sort_Permutation. simpl.
  split; intros (s & ? & ?); exists s; tauto.
Qed.

(** C7, as amended. For every table, requester and clock, the projections
    returned by [getTickets] are those of the listed tickets; a listed
    ticket has an [availableTo] that is null or later than the instant
    dayjs reckons as ten days before the clock reading, which is the same
    local time of day ten calendar days earlier; a ticket of the table
    that was never removed and has such an [availableTo] is listed; and
    that instant is ten times twenty-four hours before the reading up to
    the changes of the zone's offset, exactly so in a zone of fixed
    offset. *)
Theorem getTickets_availableTo prisma identification clock :
  let tenDaysAgo :=
    dayjs_subtract_days (LocalTZA clock) (now_dayjs clock) 10 in
  let inc := ticketIncludedFields (dbIdentification identification)
               (now_include clock) in
  (∀ out : obj, out ∈ getTickets prisma identification clock
          ↔ ∃ s, listed prisma clock s ∧ out = formatTicket (load inc s))
  ∧ (∀ s, listed prisma clock s →
          s ∈ ticket_table prisma ∧ recently_available tenDaysAgo s)
  ∧ (∀ s, s ∈ ticket_table prisma →
          removedAt (stored_shoppable (ticket_shoppable s)) = None →
          recently_available tenDaysAgo s →
          listed prisma clock s)
  ∧ (∀ lo hi, (∀ t isUTC, lo ≤ LocalTZA clock t isUTC ≤ hi) →
        now_dayjs clock - 10 * MS_PER_DAY - (hi - lo)
        ≤ tenDaysAgo
        ≤ now_dayjs clock - 10 * MS_PER_DAY + (hi - lo)).
Proof.
  intros tenDaysAgo inc. split; [|split; [|split]].
  - intros out. apply elem_of_getTickets.
  - intros s Hs. apply listed_iff in Hs. tauto.
  - intros s Hs Hremoved Hto. apply listed_iff. tauto.
  - intros lo hi Hzone. by apply dayjs_subtract_days_bounds.
Qed.

(** C9. For every table and ticket id, [getTicket] returns [null] exactly
    when no ticket of the table has that id, and otherwise returns the
    projection of a ticket of the table with that id, loaded for the
    requester; it has no other outcome. *)
Theorem getTicket_not_found prisma (ticketId : string) userId now :
  (getTicket prisma ticketId userId now = None
   ↔ ∀ s, s ∈ ticket_table prisma → id (stored_ticket s) ≠ ticketId)
  ∧ (∀ out, getTicket prisma ticketId userId now = Some out →
       ∃ s, s ∈ ticket_table prisma
            ∧ id (stored_ticket s) = ticketId
            ∧ out = formatTicket
                      (load (ticketIncludedFields (dbIdentification userId) now) s)).
Proof.
  unfold getTicket, findFirst.
  destruct (find _ (ticket_table prisma)) as [s|] eqn:Hfind; simpl.
  - apply find_some in Hfind as [Hin Hid].
    apply list_elem_of_In in Hin. apply String.eqb_eq in Hid.
    split.
    + split; [discriminate|]. intros Hnone. by destruct (Hnone s Hin).
    + intros out [= <-]. by exists s.
  - split; [|discriminate]. split; [|reflexivity].
    intros _ s Hin Hid. apply list_elem_of_In in Hin.
    apply (find_none _ _ Hfind) in Hin. simpl in Hin.
    apply String.eqb_neq in Hin. contradiction.
Qed.

End Queries.

(** ** The example shop *)

Section Examples.
#[local] Existing Instance example_types.

Ltac in_table :=
  unfold example_prisma, removed_prisma, autumn_prisma; simpl;
  rewrite ?elem_of_cons; auto 10.

(** C1. A table holds a ticket removed a day ago and a ticket to be
    removed in a day, both on sale without end: [getTickets] returns the
    projection of the removed one and nothing else. *)
Theorem getTickets_lists_removed_ticket :
  getTickets removed_prisma (member "alice") example_clock
  = [ formatTicket (load (example_include "alice") ticket_removed) ].
Proof. vm_compute. reflexivity. Qed.

(** The filter on [removedAt], as it stands: a removed ticket is listed,
    a ticket whose removal lies ahead is not. *)
Lemma removed_ticket_listed :
  listed removed_prisma example_clock ticket_removed
  ∧ ¬ listed removed_prisma example_clock ticket_leaving.
Proof.
  split.
  - apply listed_iff. split; [in_table|]. split; [|by left].
    right. eexists. split; [reflexivity|]. vm_compute. reflexivity.
  - intros Hl. apply listed_iff in Hl as (_ & [Hnull | (d & Hd & Hlt)] & _).
    + discriminate.
    + injection Hd as <-. vm_compute in Hlt. discriminate.
Qed.

(** C3, as stated, fails for bob's projection of the open ticket: the
    raw properties are gone but the list of his consumables is handed out
    under [userItemsInCart]. *)
Lemma formatTicket_exposes_user_records :
  ¬ (strips_raw_fields (formatTicket bobs_open_ticket)
     ∧ ¬ exposes (formatTicket bobs_open_ticket)
           (Consumables_array (consumables (shoppable bobs_open_ticket)))
     ∧ ¬ exposes (formatTicket bobs_open_ticket)
           (Reservations_array (reservations (shoppable bobs_open_ticket)))).
Proof.
  intros (_ & Hhidden & _). apply Hhidden.
  exists "userItemsInCart". vm_compute. reflexivity.
Qed.

(** The list handed out holds two of bob's records. *)
Example bobs_items_in_cart :
  consumables (shoppable bobs_open_ticket)
  = [ example_consumable "bob" (Some (example_now - 3000)) None;
      example_consumable "bob" None (Some (example_now + 600000)) ].
Proof. vm_compute. reflexivity. Qed.

(** Fifty bought instead of three leave more than ten of the hundred
    either way, and nobody queues: the projection is the same. *)
Lemma formatTicket_strips_raw_fields_witness :
  (Z.min (stock (ticket_row bobs_plenty_ticket) - 50) 10
   = Z.min (stock (ticket_row bobs_plenty_ticket)
            - count_consumables (_count (shoppable bobs_plenty_ticket))) 10)
  ∧ (0 <? 0) = (0 <? count_reservations (_count (shoppable bobs_plenty_ticket)))
  ∧ strips_raw_fields (formatTicket bobs_plenty_ticket)
  ∧ formatTicket (with_count bobs_plenty_ticket
                    {| count_consumables := 50; count_reservations := 0 |})
    = formatTicket bobs_plenty_ticket.
Proof.
  split; [reflexivity|]. split; [reflexivity|].
  apply (formatTicket_strips_raw_fields bobs_plenty_ticket
           {| count_consumables := 50; count_reservations := 0 |});
    reflexivity.
Defined.

(** Of the example table, the ticket on sale without end, the one whose
    sale ended five days ago and the one whose sale ends tomorrow are
    listed; the one whose sale ended eleven days ago is not. In
    Stockholm, where the offset is one or two hours, the never removed
    ticket whose sale ended after dayjs's instant is listed, and that
    instant is within an hour of ten times twenty-four hours ago. *)
Lemma getTickets_availableTo_witness :
  listed example_prisma example_clock ticket_open
  ∧ listed example_prisma example_clock ticket_ended_5
  ∧ listed example_prisma example_clock ticket_ending
  ∧ ¬ listed example_prisma example_clock ticket_ended_11
  ∧ listed autumn_prisma autumn_clock ticket_ended_10
  ∧ autumn_now - 10 * MS_PER_DAY - 3600000
    ≤ dayjs_subtract_days stockholm autumn_now 10
    ≤ autumn_now - 10 * MS_PER_DAY + 3600000.
Proof.
  destruct (getTickets_availableTo example_prisma (member "alice") example_clock)
    as (_ & Honly & Hif & _).
  destruct (getTickets_availableTo autumn_prisma (member "alice") autumn_clock)
    as (_ & _ & Hautumn & Hbounds).
  split; [|split; [|split; [|split; [|split]]]].
  - apply Hif; [in_table | reflexivity | by left].
  - apply Hif; [in_table | reflexivity |].
    right. eexists. split; [reflexivity|]. reflexivity.
  - apply Hif; [in_table | reflexivity |].
    right. eexists. split; [reflexivity|]. reflexivity.
  - intros Hl. apply Honly in Hl as [_ [Hnull | (d & Hd & Hlt)]].
    + discriminate.
    + injection Hd as <-. discriminate.
  - apply Hautumn; [in_table | reflexivity |].
    right. eexists. split; [reflexivity|]. reflexivity.
  - apply (Hbounds 3600000 7200000). intros t isUTC. cbn. unfold stockholm.
    destruct isUTC; [destruct (t <? _) | destruct (t <? _)]; lia.
Defined.

(** C7, as stated, fails on two counts. On a host on UTC, the ticket that
    is to be removed tomorrow is on sale without end and is not listed.
    On a host in Stockholm, five days after the clocks went back, the
    ticket whose sale ended ten days and half an hour ago is listed: ten
    calendar days back is ten days and an hour back. *)
Lemma listed_by_availableTo_fails :
  ¬ listed_by_availableTo removed_prisma example_clock
  ∧ ¬ listed_by_availableTo autumn_prisma autumn_clock.
Proof.
  split.
  - intros Hclaim. destruct removed_ticket_listed as [_ Hnot]. apply Hnot.
    destruct (Hclaim ticket_leaving) as [_ Hback]; [in_table|].
    apply Hback. by left.
  - intros Hclaim.
    assert (Hlisted : listed autumn_prisma autumn_clock ticket_ended_10).
    { apply listed_iff. split; [in_table|]. split; [by left|].
      right. eexists. split; [reflexivity|]. reflexivity. }
    destruct (Hclaim ticket_ended_10) as [Hforth _]; [in_table|].
    destruct (Hforth Hlisted) as [Hnull | (d & Hd & Hlt)].
    + discriminate.
    + injection Hd as <-. discriminate.
Qed.

(** No ticket of the example table is called "missing"; one is called
    "open". *)
Lemma getTicket_not_found_witness :
  getTicket example_prisma "missing" (member "alice") example_now = None
  ∧ ∃ out, getTicket example_prisma "open" (member "alice") example_now = Some out
           ∧ out !! "id" = Some (VScalar (SStr "open")).
Proof.
  destruct (getTicket_not_found example_prisma "missing" (member "alice") example_now)
    as [[_ Hnone] _].
  destruct (getTicket_not_found example_prisma "open" (member "alice") example_now)
    as [_ Hsome].
  split.
  - apply Hnone. intros s Hs. unfold example_prisma in Hs. simpl in Hs.
    repeat (apply elem_of_cons in Hs as [-> | Hs]); try discriminate.
    by apply elem_of_nil in Hs.
  - eexists. split; [reflexivity|].
    destruct (Hsome _ eq_refl) as (s & _ & _ & _). vm_compute. reflexivity.
Defined.

(** The stock of the open ticket is shown as it is, that of the plentiful
    one as ten, that of the oversold one as minus one. *)
Example ticketsLeft_examples :
  (.!! "ticketsLeft") <$> getTicket example_prisma "open" (member "alice") example_now
    = Some (Some (VNum 3))
  ∧ (.!! "ticketsLeft") <$> getTicket example_prisma "plenty" (member "alice") example_now
    = Some (Some (VNum 10))
  ∧ (.!! "ticketsLeft") <$> getTicket example_prisma "oversold" (member "alice") example_now
    = Some (Some (VNum (-1))).
Proof. repeat split; vm_compute; reflexivity. Qed.

(** At most two each: alice, who bought two, has her maximum; bob, who
    bought one, has not. *)
Example userAlreadyHasMax_examples :
  (.!! "userAlreadyHasMax") <$> getTicket example_prisma "open" (member "alice") example_now
    = Some (Some (VBool true))
  ∧ (.!! "userAlreadyHasMax") <$> getTicket example_prisma "open" (member "bob") example_now
    = Some (Some (VBool false)).
Proof. repeat split; vm_compute; reflexivity. Qed.

(** Alice has bought and holds nothing; bob holds one in his cart; carol's
    hold has expired; dave waits in the queue. *)
Example isInUsersCart_examples :
  (.!! "isInUsersCart") <$> getTicket example_prisma "open" (member "alice") example_now
    = Some (Some (VBool false))
  ∧ (.!! "isInUsersCart") <$> getTicket example_prisma "open" (member "bob") example_now
    = Some (Some (VBool true))
  ∧ (.!! "isInUsersCart") <$> getTicket example_prisma "open" (member "carol") example_now
    = Some (Some (VBool false))
  ∧ (.!! "isInUsersCart") <$> getTicket example_prisma "open" (member "dave") example_now
    = Some (Some (VBool true)).
Proof. repeat split; vm_compute; reflexivity. Qed.

End Examples.

(** * Further properties *)

(** ** More on the projection *)

Section Fields.
Context `{ShopTypes}.
Implicit Types (t : TicketFromPrisma) (s : StoredTicket)
  (dbId : DBShopIdentification).

Lemma formatTicket_event t : formatTicket t !! "event" = Some (event t).
Proof.
  unfold formatTicket, spread, TicketFromPrisma_obj.
  rewrite !lookup_delete_ne, !lookup_insert_ne by congruence.
  apply lookup_union_Some_l. by simplify_map_eq.
Qed.

(** Outside the derived and the deleted names, [formatTicket] hands the
    rows through. *)
Lemma formatTicket_lookup_public t (k : string) :
  k ∉ derived_fields → k ∉ deleted_fields →
  formatTicket t !! k = public_fields t !! k.
Proof.
  unfold derived_fields, deleted_fields. rewrite !not_elem_of_cons.
  intros (? & ? & ? & ? & ? & ? & ? & _) (? & ? & ? & ? & _).
  unfold formatTicket, public_fields, spread, TicketFromPrisma_obj,
    ShoppablePayload_obj.
  rewrite !lookup_delete_ne, !lookup_insert_ne by congruence.
  rewrite !lookup_union.
  rewrite (lookup_insert_ne _ "shoppable"), (lookup_insert_ne _ "consumables"),
    (lookup_insert_ne _ "reservations"), (lookup_insert_ne _ "_count")
    by congruence.
  reflexivity.
Qed.

(** X2. The projection has the seven derived properties and, besides,
    the properties of the ticket row, of its event and of the shoppable
    row, less the four deleted names: nothing else. *)
Theorem formatTicket_keys t :
  dom (formatTicket t)
  = list_to_set derived_fields
    ∪ (dom (public_fields t) ∖ list_to_set deleted_fields).
Proof.
  apply set_eq. intros k.
  rewrite elem_of_union, elem_of_difference, !elem_of_list_to_set, !elem_of_dom.
  destruct (decide (k ∈ derived_fields)) as [Hd|Hd].
  - split; [by left|]. intros _. unfold derived_fields in Hd.
    rewrite !elem_of_cons in Hd.
    unfold formatTicket.
    destruct Hd as [->|[->|[->|[->|[->|[->|[->|Hd]]]]]]];
      [simplify_map_eq; eauto..|by apply elem_of_nil in Hd].
  - destruct (decide (k ∈ deleted_fields)) as [Hx|Hx].
    + split; [|tauto]. intros [v Hv]. exfalso.
      unfold deleted_fields in Hx. rewrite !elem_of_cons in Hx.
      destruct (formatTicket_deletes t) as (? & ? & ? & ?).
      destruct Hx as [->|[->|[->|[->|Hx]]]]; try congruence.
      by apply elem_of_nil in Hx.
    + rewrite formatTicket_lookup_public by done. tauto.
Qed.

(** X1. Under every name that is neither derived nor deleted,
    [formatTicket] hands through the property of the ticket row or of its
    event, and where the ticket has none under that name, the property of
    the shoppable row: a column of the ticket hides the shoppable's
    column of the same name. *)
Theorem formatTicket_public_fields t (k : string) :
  k ∉ derived_fields → k ∉ deleted_fields →
  formatTicket t !! k
  = match (<["event" := event t]> (Ticket_obj (ticket_row t))) !! k with
    | Some v => Some v
    | None => Shoppable_obj (shoppable_row (shoppable t)) !! k
    end.
Proof.
  intros Hderived Hdeleted. rewrite formatTicket_lookup_public by done.
  unfold public_fields, spread. rewrite lookup_union.
  by destruct (_ !! k), (_ !! k).
Qed.

End Fields.

Section Requester.
Context `{ShopTypes}.
Implicit Types (t : TicketFromPrisma) (s : StoredTicket)
  (dbId : DBShopIdentification).

Lemma formatTicket_userItemsInCart t :
  formatTicket t !! "userItemsInCart"
  = Some (Consumables_array (consumables (shoppable t))).
Proof. unfold formatTicket. simplify_map_eq. reflexivity. Qed.

Lemma formatTicket_userReservations t :
  formatTicket t !! "userReservations"
  = Some (Reservations_array (reservations (shoppable t))).
Proof. unfold formatTicket. simplify_map_eq. reflexivity. Qed.

Lemma filter_none {A : Type} (p : A → bool) (l : list A) :
  (∀ x, x ∈ l → p x = false) → filter (λ x, p x) l = [].
Proof.
  intros Hnone. apply elem_of_nil_inv. intros x Hx.
  apply list_elem_of_filter in Hx as [Hp Hx]. apply Is_true_true in Hp.
  rewrite (Hnone x Hx) in Hp. discriminate.
Qed.

Lemma load_stranger dbId now s :
  (∀ c, c ∈ stored_consumables (ticket_shoppable s) →
        owned_by dbId (consumable_columns c) = false) →
  (∀ r, r ∈ stored_reservations (ticket_shoppable s) →
        owned_by dbId (reservation_columns r) = false) →
  consumables (shoppable (load (ticketIncludedFields dbId now) s)) = []
  ∧ reservations (shoppable (load (ticketIncludedFields dbId now) s)) = [].
Proof.
  intros Hc Hr. unfold load; cbn [shoppable consumables reservations]. split.
  - apply filter_none. intros c Hin. simpl. by rewrite (Hc c Hin).
  - apply filter_none. intros r Hin. simpl. by rewrite (Hr r Hin).
Qed.

(** X3. A requester who owns no consumable and no reservation of the
    shoppable - an anonymous visitor, say - is handed empty
    [userItemsInCart] and [userReservations], is not in the cart, and
    already has the maximum exactly when [maxAmountPerUser] is zero or
    less. *)
Theorem formatTicket_stranger dbId now s :
  (∀ c, c ∈ stored_consumables (ticket_shoppable s) →
        owned_by dbId (consumable_columns c) = false) →
  (∀ r, r ∈ stored_reservations (ticket_shoppable s) →
        owned_by dbId (reservation_columns r) = false) →
  let out := formatTicket (load (ticketIncludedFields dbId now) s) in
  out !! "userItemsInCart" = Some (VArray [])
  ∧ out !! "userReservations" = Some (VArray [])
  ∧ out !! "isInUsersCart" = Some (VBool false)
  ∧ out !! "userAlreadyHasMax"
    = Some (VBool (maxAmountPerUser (stored_ticket s) <=? 0)).
Proof.
  intros Hc Hr out. destruct (load_stranger dbId now s Hc Hr) as [Ec Er].
  subst out.
  rewrite formatTicket_userItemsInCart, formatTicket_userReservations,
    formatTicket_isInUsersCart, formatTicket_userAlreadyHasMax, Ec, Er.
  repeat split.
Qed.

Lemma isInUsersCart_earlier dbId now now' s :
  now ≤ now' →
  formatTicket (load (ticketIncludedFields dbId now') s) !! "isInUsersCart"
    = Some (VBool true) →
  formatTicket (load (ticketIncludedFields dbId now) s) !! "isInUsersCart"
    = Some (VBool true).
Proof.
  intros Hle. rewrite !loaded_isInUsersCart.
  intros [(c & Hc & Ho & Hp & [(e & He & Hlt) | Hn]) | Hr]; [left..|by right].
  - exists c. repeat (split; [done|]). left. exists e. split; [done|lia].
  - exists c. tauto.
Qed.

Lemma formatTicket_clock_free dbId now now' s (k : string) :
  k ≠ "userItemsInCart" → k ≠ "isInUsersCart" →
  formatTicket (load (ticketIncludedFields dbId now') s) !! k
  = formatTicket (load (ticketIncludedFields dbId now) s) !! k.
Proof.
  intros Hitems Hcart.
  destruct (decide (k ∈ deleted_fields)) as [Hx|Hx].
  { unfold deleted_fields in Hx. rewrite !elem_of_cons in Hx.
    destruct (formatTicket_deletes (load (ticketIncludedFields dbId now) s))
      as (? & ? & ? & ?).
    destruct (formatTicket_deletes (load (ticketIncludedFields dbId now') s))
      as (? & ? & ? & ?).
    destruct Hx as [->|[->|[->|[->|Hx]]]]; try congruence.
    by apply elem_of_nil in Hx. }
  destruct (decide (k ∈ derived_fields)) as [Hd|Hd].
  { unfold derived_fields in Hd. rewrite !elem_of_cons in Hd.
    destruct Hd as [->|[->|[->|[->|[->|[->|[->|Hd]]]]]]]; try congruence.
    - by rewrite !formatTicket_userReservations.
    - by rewrite !formatTicket_gracePeriodEndsAt.
    - by rewrite !formatTicket_userAlreadyHasMax, !load_purchased.
    - by rewrite !formatTicket_ticketsLeft.
    - by rewrite !formatTicket_hasQueue.
    - by apply elem_of_nil in Hd. }
  by rewrite !formatTicket_lookup_public.
Qed.

(** X4. Of a ticket's projection for a requester, only [userItemsInCart]
    and [isInUsersCart] depend on when the ticket is loaded, and time only
    takes out of the cart: a requester in the cart at a later reading of
    the clock is in the cart at every earlier one. *)
Theorem projection_over_time dbId now now' s :
  now ≤ now' →
  let out := formatTicket (load (ticketIncludedFields dbId now) s) in
  let out' := formatTicket (load (ticketIncludedFields dbId now') s) in
  (∀ k : string, k ≠ "userItemsInCart" → k ≠ "isInUsersCart" →
                 out' !! k = out !! k)
  ∧ (out' !! "isInUsersCart" = Some (VBool true) →
     out !! "isInUsersCart" = Some (VBool true)).
Proof.
  intros Hle out out'. split.
  - intros k ? ?. by apply formatTicket_clock_free.
  - by apply isInUsersCart_earlier.
Qed.

End Requester.

Section MoreQueries.
Context `{ShopTypes}.
Implicit Types (s : StoredTicket) (prisma : PrismaClient) (clock : Clock).

Lemma availableFrom_asc_total : Total availableFrom_asc.
Proof. intros a b. unfold availableFrom_asc. lia. Qed.

Lemma availableFrom_asc_trans : Transitive availableFrom_asc.
Proof. intros a b c. unfold availableFrom_asc. lia. Qed.

(** Among rows with distinct ids, a lookup by a row's id finds that row. *)
Lemma find_by_id (table : list StoredTicket) s :
  NoDup ((λ t, id (stored_ticket t)) <$> table) →
  s ∈ table →
  find (λ t, String.eqb (id (stored_ticket t)) (id (stored_ticket s))) table
  = Some s.
Proof.
  induction table as [|a table IH]; intros Hnodup Hin.
  - by apply elem_of_nil in Hin.
  - rewrite fmap_cons in Hnodup. apply NoDup_cons in Hnodup as [Ha Hnodup].
    simpl. destruct (String.eqb_spec (id (stored_ticket a)) (id (stored_ticket s)))
      as [Heq|Hne].
    + apply elem_of_cons in Hin as [->|Hin]; [done|].
      exfalso. apply Ha. rewrite Heq.
      apply (list_elem_of_fmap_2 (λ t, id (stored_ticket t))) in Hin. done.
    + apply elem_of_cons in Hin as [->|Hin]; [done|]. by apply IH.
Qed.

Lemma getTicket_by_id prisma userId now s :
  NoDup ((λ t, id (stored_ticket t)) <$> ticket_table prisma) →
  s ∈ ticket_table prisma →
  getTicket prisma (id (stored_ticket s)) userId now
  = Some (formatTicket
            (load (ticketIncludedFields (dbIdentification userId) now) s)).
Proof.
  intros Hnodup Hin. unfold getTicket, findFirst.
  by rewrite (find_by_id _ s Hnodup Hin).
Qed.

(** X5. In a table whose tickets have distinct ids, [getTicket] with the
    id of a ticket of the table returns the projection of that very
    ticket, be it removed or long off sale: the filter of [getTickets]
    is not applied. *)
Theorem getTicket_finds_every_ticket prisma userId now s :
  NoDup ((λ t, id (stored_ticket t)) <$> ticket_table prisma) →
  s ∈ ticket_table prisma →
  getTicket prisma (id (stored_ticket s)) userId now
  = Some (formatTicket
            (load (ticketIncludedFields (dbIdentification userId) now) s)).
Proof. apply getTicket_by_id. Qed.

(** X6. In a table whose tickets have distinct ids, every ticket that
    [getTickets] lists is found by [getTicket] under its id, and with the
    same reading of the clock the projection is one of those that
    [getTickets] returns. *)
Theorem getTickets_getTicket_agree prisma identification clock s :
  NoDup ((λ t, id (stored_ticket t)) <$> ticket_table prisma) →
  listed prisma clock s →
  ∃ out, getTicket prisma (id (stored_ticket s)) identification
           (now_include clock) = Some out
         ∧ out ∈ getTickets prisma identification clock.
Proof.
  intros Hnodup Hlisted. eexists. split.
  - apply getTicket_by_id; [done|]. apply listed_iff in Hlisted. tauto.
  - apply elem_of_getTickets. by exists s.
Qed.

(** X7. [getTickets] returns the projections of the selected tickets, each
    as often as it is selected, in ascending order of [availableFrom]. *)
Theorem getTickets_sorted prisma identification clock :
  ∃ ts,
    getTickets prisma identification clock
    = (λ s, formatTicket
              (load (ticketIncludedFields (dbIdentification identification)
                       (now_include clock)) s)) <$> ts
    ∧ ts ≡ₚ selected prisma
              (getTickets_where (now_where clock)
                 (dayjs_subtract_days (LocalTZA clock) (now_dayjs clock) 10))
    ∧ StronglySorted availableFrom_asc ts.
Proof.
  eexists. split; [|split].
  - unfold getTickets, findMany. rewrite <- list_fmap_compose. reflexivity.
  - apply merge_sort_Permutation.
  - apply StronglySorted_merge_sort;
      [apply availableFrom_asc_trans | apply availableFrom_asc_total].
Qed.

End MoreQueries.

(** ** Events with their tickets *)

Section Events.
Context `{ShopTypes}.
Variable BASIC_EVENT_FILTER : bool → EventWhereInput.
Implicit Types (e : StoredEvent) (s : StoredTicket) (filters : EventWhereInput).

Lemma startDatetime_asc_total : Total startDatetime_asc.
Proof. intros a b. unfold startDatetime_asc. lia. Qed.

Lemma startDatetime_asc_trans : Transitive startDatetime_asc.
Proof. intros a b c. unfold startDatetime_asc. lia. Qed.

Lemma event_matches_true (where_ : EventWhereInput) e :
  event_matches where_ e = true
  ↔ ∀ k condition, where_ !! k = Some condition → condition e = true.
Proof.
  unfold event_matches. rewrite forallb_forall. split.
  - intros Hall k condition Hk.
    apply (Hall (k, condition)). apply list_elem_of_In.
    by apply elem_of_map_to_list.
  - intros Hall [k condition] Hin. apply list_elem_of_In in Hin.
    apply elem_of_map_to_list in Hin. by apply (Hall k).
Qed.

(** A key of [filters] takes the place of the same key of the basic
    filter. *)
Lemma merged_where_true filters e :
  event_matches (filters ∪ BASIC_EVENT_FILTER true) e = true
  ↔ (∀ k condition, filters !! k = Some condition → condition e = true)
    ∧ (∀ k condition, BASIC_EVENT_FILTER true !! k = Some condition →
                      filters !! k = None → condition e = true).
Proof.
  rewrite event_matches_true. split.
  - intros Hall. split.
    + intros k c Hk. apply (Hall k). by apply lookup_union_Some_l.
    + intros k c Hk Hnone. apply (Hall k).
      apply lookup_union_Some_raw. by right.
  - intros [Hf Hb] k c Hk. apply lookup_union_Some_raw in Hk as [Hk|[Hnone Hk]].
    + by apply (Hf k).
    + by apply (Hb k).
Qed.

Lemma elem_of_getEventsWithTickets table identification filters now (out : obj) :
  out ∈ getEventsWithTickets BASIC_EVENT_FILTER table identification filters now
  ↔ ∃ e, e ∈ table
         ∧ event_matches (filters ∪ BASIC_EVENT_FILTER true) e = true
         ∧ out = formatEvent
                   (load_event (ticketIncludedFields
                                  (dbIdentification identification) now) e).
Proof.
  unfold getEventsWithTickets, event_findMany, selected_events.
  rewrite <- list_fmap_compose, list_elem_of_fmap.
  setoid_rewrite merge_sort_Permutation.
  setoid_rewrite list_elem_of_filter. setoid_rewrite Is_true_true. simpl.
  split; intros (e & ? & ?); exists e; tauto.
Qed.

(** A nested ticket is projected as a ticket fetched by itself is, its
    [event] apart. *)
Lemma formatTicket_with_event inc s (eventData : obj) :
  formatTicket (with_event (load_nested inc s) eventData)
  = <["event" := VObject eventData]> (formatTicket (load inc s)).
Proof.
  apply map_eq. intros k.
  destruct (decide (k = "event")) as [->|Hk].
  - by rewrite formatTicket_event, lookup_insert_eq.
  - rewrite lookup_insert_ne by done.
    unfold formatTicket, with_event, load_nested, spread, TicketFromPrisma_obj;
      cbn [ticket_row shoppable event].
    rewrite !lookup_delete, !lookup_insert.
    repeat case_decide; try reflexivity.
    rewrite !lookup_union, !lookup_insert.
    repeat case_decide; try reflexivity; congruence.
Qed.

Lemma formatEvent_tickets (ev : EventFromPrisma) :
  formatEvent ev !! "tickets"
  = Some (VArray ((λ t, VObject (formatTicket
                    (with_event t (delete "tickets" (formatEvent ev)))))
                  <$> tickets ev)).
Proof.
  unfold formatEvent at 1. rewrite lookup_insert_eq.
  unfold formatEvent. by rewrite delete_insert_eq.
Qed.

(** X8. In every event that [getEventsWithTickets] returns, [tickets] is
    an array of ticket projections, and the [event] of each of them is the
    returned event itself without its [tickets]: the event's own data and
    tags, and no way back to the list. *)
Theorem getEventsWithTickets_back_reference table identification filters now
    (out : obj) :
  out ∈ getEventsWithTickets BASIC_EVENT_FILTER table identification filters now →
  ∃ projections,
    out !! "tickets" = Some (VArray projections)
    ∧ ∀ p, p ∈ projections →
        ∃ ticket : obj,
          p = VObject ticket
          ∧ ticket !! "event" = Some (VObject (delete "tickets" out))
          ∧ delete "tickets" out !! "tickets" = None
          ∧ strips_raw_fields ticket.
Proof.
  intros Hout. apply elem_of_getEventsWithTickets in Hout as (e & _ & _ & ->).
  eexists. split; [apply formatEvent_tickets|].
  intros p Hp. apply list_elem_of_fmap in Hp as (t & -> & _).
  eexists. split; [reflexivity|]. split; [apply formatTicket_event|].
  split; [apply lookup_delete_eq | apply formatTicket_deletes].
Qed.

(** X9. [getEventsWithTickets] returns an event exactly when it meets
    every condition of [filters] and every condition of
    [BASIC_EVENT_FILTER(true)] whose key [filters] does not use: a key
    given by the caller replaces the basic condition under that key. *)
Theorem getEventsWithTickets_where table identification filters now (out : obj) :
  out ∈ getEventsWithTickets BASIC_EVENT_FILTER table identification filters now
  ↔ ∃ e, e ∈ table
         ∧ (∀ k condition, filters !! k = Some condition → condition e = true)
         ∧ (∀ k condition, BASIC_EVENT_FILTER true !! k = Some condition →
                           filters !! k = None → condition e = true)
         ∧ out = formatEvent
                   (load_event (ticketIncludedFields
                                  (dbIdentification identification) now) e).
Proof.
  rewrite elem_of_getEventsWithTickets.
  setoid_rewrite merged_where_true.
  split; intros (e & ?); exists e; tauto.
Qed.

(** X10. [getEventsWithTickets] returns the selected events, each as often
    as it is selected, in ascending order of [startDatetime]. *)
Theorem getEventsWithTickets_sorted table identification filters now :
  ∃ es,
    getEventsWithTickets BASIC_EVENT_FILTER table identification filters now
    = (λ e, formatEvent
              (load_event (ticketIncludedFields
                             (dbIdentification identification) now) e)) <$> es
    ∧ es ≡ₚ selected_events table (filters ∪ BASIC_EVENT_FILTER true)
    ∧ StronglySorted startDatetime_asc es.
Proof.
  eexists. split; [|split].
  - unfold getEventsWithTickets, event_findMany.
    rewrite <- list_fmap_compose. reflexivity.
  - apply merge_sort_Permutation.
  - apply StronglySorted_merge_sort;
      [apply startDatetime_asc_trans | apply startDatetime_asc_total].
Qed.

(** X11. For every stored event that passes the filter, a returned event
    carries one projection for each of its tickets, in the stored order
    and whatever the ticket's [removedAt] and [availableTo]: the
    projection [getTicket] makes of the ticket, with [event] set to the
    returned event without its [tickets]. *)
Theorem getEventsWithTickets_nested_tickets table identification filters now e :
  let inc := ticketIncludedFields (dbIdentification identification) now in
  e ∈ table →
  event_matches (filters ∪ BASIC_EVENT_FILTER true) e = true →
  ∃ out : obj,
    out ∈ getEventsWithTickets BASIC_EVENT_FILTER table identification filters now
    ∧ out !! "tickets"
      = Some (VArray ((λ s, VObject (<["event" := VObject (delete "tickets" out)]>
                                       (formatTicket (load inc s))))
                      <$> event_tickets e)).
Proof.
  intros inc Hin Hmatch. exists (formatEvent (load_event inc e)). split.
  - apply elem_of_getEventsWithTickets. by exists e.
  - rewrite formatEvent_tickets.
    cbn [load_event tickets]. rewrite <- list_fmap_compose.
    do 2 f_equal. apply list_fmap_ext. intros i s _. simpl.
    by rewrite formatTicket_with_event.
Qed.

End Events.

(** ** The genitive *)

Section Genitive.
Import PositionPage.

Lemma endsWith_suffix (s suffix : string) :
  endsWith s suffix = true ↔ ∃ front, s = front +:+ suffix.
Proof.
  induction s as [|a rest IH]; cbn [endsWith].
  - rewrite orb_false_r, String.eqb_eq. split.
    + intros <-. by exists "".
    + intros ([|b front] & Hs); simpl in Hs; [done | discriminate].
  - rewrite orb_true_iff, String.eqb_eq, IH. split.
    + intros [<- | (front & ->)]; [by exists "" | by exists (String a front)].
    + intros ([|b front] & Hs); simpl in Hs; [by left|].
      injection Hs as -> ->. right. by exists front.
Qed.

Lemma append_String (a : Ascii.ascii) (s t : string) :
  String a s +:+ t = String a (s +:+ t).
Proof. reflexivity. Qed.

Lemma append_empty (t : string) : "" +:+ t = t.
Proof. reflexivity. Qed.

Lemma length_append (s t : string) :
  String.length (s +:+ t) = (String.length s + String.length t)%nat.
Proof.
  induction s as [|a s IH]; [done|].
  rewrite append_String. simpl. by rewrite IH.
Qed.

Lemma append_s_apostrophe (base front : string) :
  base +:+ "'s" ≠ front +:+ "'".
Proof.
  revert front. induction base as [|a base IH]; intros front.
  - destruct front as [|b [|c [|d front]]];
      rewrite ?append_String, ?append_empty; congruence.
  - destruct front as [|b front]; rewrite ?append_String, ?append_empty.
    + destruct base; rewrite ?append_String, ?append_empty; congruence.
    + intros [= -> Heq]. by apply (IH front).
Qed.

Lemma endsWith_app (front suffix : string) :
  endsWith (front +:+ suffix) suffix = true.
Proof. apply endsWith_suffix. by exists front. Qed.

(** X12. In Swedish the genitive is the name itself when it ends in "s" or
    "x" and the name followed by "s" otherwise; so it always ends in "s"
    or "x", and the genitive of a genitive is that genitive. *)
Theorem genitiveCase_sv (base : string) :
  (genitiveCase "sv" base = base ∨ genitiveCase "sv" base = base +:+ "s")
  ∧ (genitiveCase "sv" base = base
     ↔ endsWith base "s" = true ∨ endsWith base "x" = true)
  ∧ (endsWith (genitiveCase "sv" base) "s" = true
     ∨ endsWith (genitiveCase "sv" base) "x" = true)
  ∧ genitiveCase "sv" (genitiveCase "sv" base) = genitiveCase "sv" base.
Proof.
  unfold genitiveCase. simpl String.eqb. cbv iota.
  destruct (endsWith base "s") eqn:Hs, (endsWith base "x") eqn:Hx; simpl;
    rewrite ?Hs, ?Hx, ?endsWith_app; simpl.
  1-3: repeat split; auto.
  repeat split; auto.
  - intros Heq. exfalso. clear -Heq.
    assert (Hlen : String.length (base +:+ "s") = String.length base)
      by (by rewrite Heq).
    rewrite length_append in Hlen. simpl in Hlen. lia.
  - intros [|]; discriminate.
Qed.

(** X13. Under any language tag but "sv" the genitive is the name followed
    by an apostrophe when it ends in "s" and by "'s" otherwise: one or
    two characters longer than the name, never the name itself. *)
Theorem genitiveCase_other (languageTag base : string) :
  languageTag ≠ "sv" →
  (genitiveCase languageTag base
   = base +:+ (if endsWith base "s" then "'" else "'s"))
  ∧ (String.length base < String.length (genitiveCase languageTag base)
     ≤ String.length base + 2)%nat
  ∧ (endsWith (genitiveCase languageTag base) "'" = true
     ↔ endsWith base "s" = true).
Proof.
  intros Hlang. unfold genitiveCase.
  apply String.eqb_neq in Hlang. rewrite Hlang.
  destruct (endsWith base "s") eqn:Hs.
  - split; [done|]. rewrite length_append, endsWith_app. simpl.
    split; [lia|done].
  - split; [done|]. rewrite length_append. simpl. split; [lia|].
    split; [|discriminate]. intros Hq. exfalso.
    apply endsWith_suffix in Hq as (front & Hq).
    by apply append_s_apostrophe in Hq.
Qed.

End Genitive.

(** ** The handlers of the page of a position *)

Section Handlers.
Import PositionPage.
Context `{Messages}.
Variable languageTag : string.

(** Every run ends: the interpreter's run is one of them. *)
Lemma exec_runs {R : Type} (env : ∀ c, option (Response c)) (p : Prog R) :
  runs p (exec env p).1 (exec env p).2.
Proof.
  induction p as [r|e|c k IH|c k IH]; simpl.
  - done.
  - done.
  - destruct (env c) as [answer|]; [|by left].
    right. exists answer. specialize (IH answer).
    destruct (exec env (k answer)) as [rest result]. by exists rest.
  - destruct (exec env k) as [rest result]. by exists rest.
Qed.

Ltac run_cases :=
  repeat match goal with
    | Hrun : runs (Await _ _) _ _ |- _ =>
        destruct Hrun as [[-> ->] | (? & ? & -> & Hrun)]
    | Hrun : runs (Start _ _) _ _ |- _ => destruct Hrun as (? & -> & Hrun)
    | Hrun : runs (Return _) _ _ |- _ => destruct Hrun as [-> ->]
    | Hrun : runs (Throw _) _ _ |- _ => destruct Hrun as [-> ->]
    | Hrun : runs (if ?b then _ else _) _ _ |- _ => destruct b eqn:?
    | Hrun : runs (match ?m with Some _ => _ | None => _ end) _ _ |- _ =>
        destruct m eqn:?
    end; subst.

Ltac all_runs :=
  unfold always; intros trace result Hrun;
  unfold update, addMandate, updateMandate, deleteMandate, load in Hrun;
  cbv zeta in Hrun; run_cases.

(** X14. An action that returns anything but its success message has
    written nothing to the datastore and has not called keycloak. *)
Theorem failed_action_is_quiet (params_id : string) :
  always (update params_id)
    (λ trace result, ∀ r, result = inr r → is_success r = false → quiet trace)
  ∧ always (addMandate params_id)
      (λ trace result, ∀ r, result = inr r → is_success r = false → quiet trace)
  ∧ always (updateMandate languageTag params_id)
      (λ trace result, ∀ r, result = inr r → is_success r = false → quiet trace)
  ∧ always (deleteMandate languageTag params_id)
      (λ trace result, ∀ r, result = inr r → is_success r = false → quiet trace).
Proof.
  unfold quiet, calls.
  split; [|split; [|split]].
  - all_runs; intros r [= <-] Hr; try discriminate;
      repeat constructor.
  - all_runs; intros r [= <-] Hr; try discriminate;
      repeat constructor.
  - all_runs; intros r [= <-] Hr; try discriminate;
      repeat constructor.
  - all_runs; intros r [= <-] Hr; try discriminate;
      repeat constructor.
Qed.


Lemma returned_calls_returned c answer trace :
  returned_calls (Returned c answer :: trace) = c :: returned_calls trace.
Proof. reflexivity. Qed.
Lemma returned_calls_rejected c trace :
  returned_calls (Rejected c :: trace) = returned_calls trace.
Proof. reflexivity. Qed.
Lemma returned_calls_started c trace :
  returned_calls (Started c :: trace) = returned_calls trace.
Proof. reflexivity. Qed.
Lemma started_calls_returned c answer trace :
  started_calls (Returned c answer :: trace) = started_calls trace.
Proof. reflexivity. Qed.
Lemma started_calls_rejected c trace :
  started_calls (Rejected c :: trace) = started_calls trace.
Proof. reflexivity. Qed.
Lemma started_calls_started c trace :
  started_calls (Started c :: trace) = c :: started_calls trace.
Proof. reflexivity. Qed.

Ltac read_trace :=
  rewrite ?returned_calls_returned, ?returned_calls_rejected,
    ?returned_calls_started, ?started_calls_returned,
    ?started_calls_rejected, ?started_calls_started;
  change (returned_calls []) with (@nil Call);
  change (started_calls []) with (@nil Call).

Ltac no_such_call Hc :=
  lazymatch type of Hc with
  | _ ∈ [] => by apply elem_of_nil in Hc
  | _ ∈ _ :: _ =>
      apply elem_of_cons in Hc; destruct Hc as [Hc | Hc];
      [subst; try discriminate | no_such_call Hc]
  end.

Ltac find_call :=
  match goal with
  | |- ∃ c, c ∈ ?l ∧ _ =>
      let rec go l :=
        lazymatch l with
        | ?x :: ?l' =>
            first [ by (exists x; split;
                          [ rewrite !elem_of_cons; auto 10 | reflexivity ])
                  | go l' ]
        end in
      go l
  end.

Ltac in_step_cases :=
  unfold in_step; read_trace;
  split; [ split; intros (c & Hc & Hw);
           first [ find_call | exfalso; no_such_call Hc ]
         | intros c Hc; no_such_call Hc; eauto ].

(** X15. Keycloak follows the datastore. In every run of [addMandate] and
    of [deleteMandate], however it ends, keycloak is called exactly when
    the write has returned, and then for the position of the page;
    [update] and [updateMandate] never call keycloak. *)
Theorem keycloak_in_step (params_id : string) :
  always (addMandate params_id)
    (λ trace _, in_step trace
                ∧ ∀ c, c ∈ started_calls trace →
                       ∃ student, c = keycloak_addMandate student params_id)
  ∧ always (deleteMandate languageTag params_id)
      (λ trace _, in_step trace
                  ∧ ∀ c, c ∈ started_calls trace →
                         ∃ student, c = keycloak_deleteMandate student params_id)
  ∧ always (update params_id)
      (λ trace _, Forall (λ c, is_keycloak c = false) (calls trace))
  ∧ always (updateMandate languageTag params_id)
      (λ trace _, Forall (λ c, is_keycloak c = false) (calls trace)).
Proof.
  split; [|split; [|split]].
  - all_runs; in_step_cases.
  - all_runs; in_step_cases.
  - all_runs; unfold calls; repeat constructor.
  - all_runs; unfold calls; repeat constructor.
Qed.

Ltac positions :=
  unfold calls; cbn; split;
  [ repeat (first [ apply Forall_nil_2
                  | apply Forall_cons_2; [cbn; intros p Hp; congruence|] ])
  | vm_compute; lia ].

(** X16. Every run of an action writes to the datastore at most once, and
    whatever it writes or tells keycloak names the position of the page. *)
Theorem actions_stay_in_position (params_id : string) :
  let within trace :=
    Forall (λ c, ∀ p, position_of c = Some p → p = params_id) (calls trace)
    ∧ (length (filter (λ c, is_write c) (calls trace)) ≤ 1)%nat in
  always (update params_id) (λ trace _, within trace)
  ∧ always (addMandate params_id) (λ trace _, within trace)
  ∧ always (updateMandate languageTag params_id) (λ trace _, within trace)
  ∧ always (deleteMandate languageTag params_id) (λ trace _, within trace).
Proof.
  intros within. subst within.
  split; [|split; [|split]]; all_runs; positions.
Qed.

(** X17. [updateMandate] never returns a success message: it signals
    success by throwing a redirect to the page of the position, which it
    does exactly when the update of the mandate has returned. *)
Theorem updateMandate_redirects (params_id : string) :
  always (updateMandate languageTag params_id)
    (λ trace result,
       ((∃ c, c ∈ returned_calls trace ∧ is_write c = true)
        ↔ ∃ text, result
                  = inl (Redirect ("/positions/" +:+ params_id) text "success"))
       ∧ (∀ location text type, result = inl (Redirect location text type) →
            location = "/positions/" +:+ params_id)
       ∧ (∀ r, result = inr r → is_success r = false)).
Proof.
  all_runs; read_trace;
    (split; [split; [ intros (c & Hc & Hw);
                      first [ by eexists | exfalso; no_such_call Hc ]
                    | intros (text & Htext);
                      first [ discriminate | find_call ] ]
            | split; [ intros ? ? ? ?; congruence
                     | intros r ?; simplify_eq; reflexivity ] ]).
Qed.

(** X18. A run of [addMandate] that returns the success message has
    validated the form and found it valid, looked up the member the form
    names, created a mandate of that member for the position of the page
    with the dates of the form, and told keycloak of it with the
    member's [studentId], in this order and nothing else; the message
    names the member by first name, or as "the member" when there is
    none. *)
Theorem addMandate_success (params_id : string) trace r :
  runs (addMandate params_id) trace (inr r) →
  is_success r = true →
  ∃ (form : Form AddMandateData) (member : Member),
    valid form = true
    ∧ trace = [ Returned (superValidate addManadateSchema) form;
                Returned (member_findUnique (memberId (data form))) (Some member);
                Returned (mandate_create params_id (memberId (data form))
                            (startDate (data form)) (endDate (data form))) tt;
                Started (keycloak_addMandate (studentId member) params_id) ]
    ∧ r = message form
            (positions_newMandateGivenTo
               (nullish (firstName member) positions_theMember))
            "success" None.
Proof.
  intros Hrun Hr. remember (inr r) as result eqn:Hres.
  unfold addMandate in Hrun. run_cases; simplify_eq; try discriminate.
  match goal with
  | Hv : negb (valid ?f) = false |- context [Returned _ ?u :: [Started _]] =>
      apply negb_false_iff in Hv; destruct u
  end.
  eexists _, _. by repeat split.
Qed.

(** X19. A run of [deleteMandate] that returns the success message has
    validated the form and found it valid, looked up the member holding
    the mandate the form names, deleted that mandate under the position
    of the page, and told keycloak of it with the member's [studentId],
    in this order and nothing else; the message names the member in the
    genitive. *)
Theorem deleteMandate_success (params_id : string) trace r :
  runs (deleteMandate languageTag params_id) trace (inr r) →
  is_success r = true →
  ∃ (form : Form DeleteMandateData) (member : Member),
    valid form = true
    ∧ trace = [ Returned (superValidate deleteMandateSchema) form;
                Returned (member_findFirst (deleted_mandateId (data form)))
                  (Some member);
                Returned (mandate_delete (deleted_mandateId (data form))
                            params_id) tt;
                Started (keycloak_deleteMandate (studentId member) params_id) ]
    ∧ r = message form
            (positions_mandateRemoved
               (genitiveCase languageTag
                  (nullish (firstName member) positions_theMember)))
            "success" None.
Proof.
  intros Hrun Hr. remember (inr r) as result eqn:Hres.
  unfold deleteMandate in Hrun. run_cases; simplify_eq; try discriminate.
  match goal with
  | Hv : negb (valid ?f) = false |- context [Returned _ ?u :: [Started _]] =>
      apply negb_false_iff in Hv; destruct u
  end.
  eexists _, _. by repeat split.
Qed.

Ltac read_answers :=
  unfold validations, member_answers, calls; cbn.

Ltac refute_elem Hin :=
  lazymatch type of Hin with
  | _ ∈ [] => by apply elem_of_nil in Hin
  | _ ∈ _ :: _ =>
      apply elem_of_cons in Hin; destruct Hin as [Hin | Hin];
      [ | refute_elem Hin ]
  end.

(** X20. When [superValidate] returns a form that is not valid, each of
    the four actions returns [fail(400, { form })] with the very form
    that [superValidate] returned, and that call is the only one it has
    made. *)
Theorem invalid_form_fails (params_id : string) :
  always (update params_id)
    (λ trace result, false ∈ validations trace →
       ∃ form, valid form = false
               ∧ trace = [Returned (superValidate updateSchema) form]
               ∧ result = inr (fail 400 form))
  ∧ always (addMandate params_id)
      (λ trace result, false ∈ validations trace →
         ∃ form, valid form = false
                 ∧ trace = [Returned (superValidate addManadateSchema) form]
                 ∧ result = inr (fail 400 form))
  ∧ always (updateMandate languageTag params_id)
      (λ trace result, false ∈ validations trace →
         ∃ form, valid form = false
                 ∧ trace = [Returned (superValidate updateMandateSchema) form]
                 ∧ result = inr (fail 400 form))
  ∧ always (deleteMandate languageTag params_id)
      (λ trace result, false ∈ validations trace →
         ∃ form, valid form = false
                 ∧ trace = [Returned (superValidate deleteMandateSchema) form]
                 ∧ result = inr (fail 400 form)).
Proof.
  split; [|split; [|split]]; all_runs; read_answers; intros Hin;
    try (by apply elem_of_nil in Hin);
    match goal with
    | Hv : negb (valid ?f) = true |- _ =>
        apply negb_true_iff in Hv; by exists f
    | Hv : negb (valid ?f) = false |- _ =>
        apply negb_false_iff in Hv; exfalso; refute_elem Hin;
        cbn in *; congruence
    end.
Qed.

(** X21. When the lookup of the member returns null, [addMandate] sets an
    error on the field [memberId], [updateMandate] and [deleteMandate]
    return the error message "mandate not found" with status 400, and
    none of them has written anything or called keycloak: the lookup was
    the last call. *)
Theorem missing_member (params_id : string) :
  always (addMandate params_id)
    (λ trace result, None ∈ member_answers trace →
       ∃ form, result = inr (setError form "memberId"
                               positions_errors_memberNotFound)
               ∧ calls trace = [ superValidate addManadateSchema;
                                 member_findUnique (memberId (data form)) ])
  ∧ always (updateMandate languageTag params_id)
      (λ trace result, None ∈ member_answers trace →
         ∃ form, result = inr (message form positions_errors_mandateNotFound
                                 "error" (Some 400))
                 ∧ calls trace = [ superValidate updateMandateSchema;
                                   member_findFirst
                                     (updated_mandateId (data form)) ])
  ∧ always (deleteMandate languageTag params_id)
      (λ trace result, None ∈ member_answers trace →
         ∃ form, result = inr (message form positions_errors_mandateNotFound
                                 "error" (Some 400))
                 ∧ calls trace = [ superValidate deleteMandateSchema;
                                   member_findFirst
                                     (deleted_mandateId (data form)) ]).
Proof.
  split; [|split]; all_runs; read_answers; intros Hin;
    try (by apply elem_of_nil in Hin);
    first [ by eexists | exfalso; refute_elem Hin; cbn in *; congruence ].
Qed.

(** X22. [load] writes nothing. It throws the error 404 "position not
    found" exactly when the lookup of the position returns null. When a
    position is returned, [load] starts the four forms in the order of
    the source and awaits none of them, and returns them with that
    position and its mandates: the form of the position is made from the
    position, the forms for a new mandate and for a deletion from their
    schemas alone, and the form for a mandate from a mandate of this
    position with the id that [editMandate] names - from the schema alone
    when the parameter is absent or names no mandate of this position. *)
Theorem load_position (params_id : string) (editMandate : option string) :
  always (load params_id editMandate)
    (λ trace result,
       quiet trace
       ∧ (result = inl (HttpError 404 positions_errors_positionNotFound)
          ↔ None ∈ position_answers trace)
       ∧ ∀ loaded, result = inr loaded →
           trace = [ Returned (position_findUnique params_id)
                       (Some (position loaded));
                     Started (updateForm loaded);
                     Started (addMandateForm loaded);
                     Started (updateMandateForm loaded);
                     Started (deleteMandateForm loaded) ]
           ∧ updateForm loaded
             = superValidate_from (position_data (position loaded)) updateSchema
           ∧ addMandateForm loaded
             = superValidate_from no_data addManadateSchema
           ∧ deleteMandateForm loaded
             = superValidate_from no_data deleteMandateSchema
           ∧ loaded_mandates loaded = mandates (position loaded)
           ∧ ((∃ m, updateMandateForm loaded
                    = superValidate_from (mandate_data m) updateMandateSchema
                    ∧ m ∈ mandates (position loaded)
                    ∧ editMandate = Some (mandate_id m))
              ∨ (updateMandateForm loaded
                 = superValidate_from no_data updateMandateSchema
                 ∧ ∀ m, m ∈ mandates (position loaded) →
                        editMandate ≠ Some (mandate_id m)))).
Proof.
  all_runs; unfold quiet, calls, position_answers; cbn.
  - split; [repeat constructor|]. split; [|discriminate].
    split; [discriminate | intros Hin; by apply elem_of_nil in Hin].
  - destruct (find _ _) as [m|] eqn:Hfind.
    + split; [repeat constructor|]. split.
      * split; [discriminate|]. intros Hin. refute_elem Hin. discriminate.
      * intros loaded [= <-]. cbn. repeat (split; [reflexivity|]).
        left. exists m. split; [reflexivity|].
        apply find_some in Hfind as [Hin Hid].
        apply list_elem_of_In in Hin. apply bool_decide_eq_true in Hid.
        done.
    + split; [repeat constructor|]. split.
      * split; [discriminate|]. intros Hin. refute_elem Hin. discriminate.
      * intros loaded [= <-]. cbn. repeat (split; [reflexivity|]).
        right. split; [reflexivity|]. intros m Hin Hid.
        apply list_elem_of_In in Hin.
        apply (find_none _ _ Hfind) in Hin.
        apply bool_decide_eq_false in Hin. congruence.
  - split; [repeat constructor|]. split; [|discriminate].
    split; [intros _; left | done].
Qed.

End Handlers.

(** ** The examples, once more *)

Section MoreExamples.
#[local] Existing Instance example_types.

Ltac in_list := rewrite ?elem_of_cons; auto 10.

Ltac each_of Hin :=
  lazymatch type of Hin with
  | _ ∈ [] => by apply elem_of_nil in Hin
  | _ ∈ _ :: _ =>
      apply elem_of_cons in Hin; destruct Hin as [Hin | Hin];
      [subst | each_of Hin]
  end.

(** The id of bob's open ticket is the ticket's. *)
Lemma formatTicket_public_fields_witness :
  ("id" ∉ derived_fields) ∧ ("id" ∉ deleted_fields)
  ∧ formatTicket bobs_open_ticket !! "id" = Some (VScalar (SStr "open")).
Proof.
  assert (Hderived : "id" ∉ derived_fields)
    by (unfold derived_fields; rewrite !not_elem_of_cons;
        repeat split; try discriminate; apply not_elem_of_nil).
  assert (Hdeleted : "id" ∉ deleted_fields)
    by (unfold deleted_fields; rewrite !not_elem_of_cons;
        repeat split; try discriminate; apply not_elem_of_nil).
  split; [done|]. split; [done|].
  rewrite (formatTicket_public_fields bobs_open_ticket "id" Hderived Hdeleted).
  reflexivity.
Defined.

(** Erin has nothing to do with the open ticket. *)
Lemma formatTicket_stranger_witness :
  let out := formatTicket (load (example_include "erin") ticket_open) in
  out !! "userItemsInCart" = Some (VArray [])
  ∧ out !! "userReservations" = Some (VArray [])
  ∧ out !! "isInUsersCart" = Some (VBool false)
  ∧ out !! "userAlreadyHasMax" = Some (VBool false).
Proof.
  apply (formatTicket_stranger (dbIdentification (member "erin"))
           (now_include example_clock) ticket_open).
  - intros c Hc. unfold ticket_open, example_ticket in Hc. cbn in Hc.
    unfold example_purchases in Hc. each_of Hc; reflexivity.
  - intros r Hr. unfold ticket_open, example_ticket in Hr. cbn in Hr.
    unfold example_queue in Hr. each_of Hr; reflexivity.
Defined.

(** Bob's hold of the open ticket lasts ten minutes: he is in the cart
    now, and what he is shown a second later differs in nothing but
    possibly the cart. *)
Lemma projection_over_time_witness :
  example_now ≤ example_now + 1000
  ∧ formatTicket (load (ticketIncludedFields (dbIdentification (member "bob"))
                          (example_now + 1000)) ticket_open) !! "ticketsLeft"
    = formatTicket (load (ticketIncludedFields (dbIdentification (member "bob"))
                            example_now) ticket_open) !! "ticketsLeft".
Proof.
  assert (Hle : example_now ≤ example_now + 1000) by (vm_compute; discriminate).
  split; [done|].
  destruct (projection_over_time (dbIdentification (member "bob"))
              example_now (example_now + 1000) ticket_open Hle) as [Hsame _].
  apply Hsame; discriminate.
Defined.

Lemma removed_prisma_ids :
  NoDup ((λ t, id (stored_ticket t)) <$> ticket_table removed_prisma).
Proof. apply (bool_decide_unpack _). vm_compute. exact I. Qed.

Lemma example_prisma_ids :
  NoDup ((λ t, id (stored_ticket t)) <$> ticket_table example_prisma).
Proof. apply (bool_decide_unpack _). vm_compute. exact I. Qed.

(** The ticket that is to be removed tomorrow is found by its id. *)
Lemma getTicket_finds_every_ticket_witness :
  getTicket removed_prisma "leaving" (member "alice") example_now
  = Some (formatTicket
            (load (ticketIncludedFields (dbIdentification (member "alice"))
                     example_now) ticket_leaving)).
Proof.
  apply (getTicket_finds_every_ticket removed_prisma (member "alice")
           example_now ticket_leaving removed_prisma_ids).
  unfold removed_prisma; simpl. in_list.
Defined.

(** The open ticket is listed, and found by its id. *)
Lemma getTickets_getTicket_agree_witness :
  ∃ out, getTicket example_prisma "open" (member "alice")
           (now_include example_clock) = Some out
         ∧ out ∈ getTickets example_prisma (member "alice") example_clock.
Proof.
  apply (getTickets_getTicket_agree example_prisma (member "alice")
           example_clock ticket_open example_prisma_ids).
  apply listed_iff. split; [unfold example_prisma; simpl; in_list|].
  split; by left.
Defined.

(** The gala is returned, with tickets that point back at it. *)
Lemma getEventsWithTickets_back_reference_witness :
  let gala :=
    formatEvent (load_event (example_include "alice") event_gala) in
  ∃ projections,
    gala !! "tickets" = Some (VArray projections)
    ∧ ∀ p, p ∈ projections →
        ∃ ticket : obj,
          p = VObject ticket
          ∧ ticket !! "event" = Some (VObject (delete "tickets" gala))
          ∧ delete "tickets" gala !! "tickets" = None
          ∧ strips_raw_fields ticket.
Proof.
  apply (getEventsWithTickets_back_reference example_basic_filter
           example_events (member "alice") ∅ (now_include example_clock)).
  apply elem_of_getEventsWithTickets. exists event_gala.
  split; [unfold example_events; in_list|]. split; reflexivity.
Defined.

(** The gala has two tickets, one of them removed: both are projected. *)
Lemma getEventsWithTickets_nested_tickets_witness :
  ∃ out : obj,
    out ∈ getEventsWithTickets example_basic_filter example_events
            (member "alice") ∅ (now_include example_clock)
    ∧ out !! "tickets"
      = Some (VArray
          [ VObject (<["event" := VObject (delete "tickets" out)]>
                       (formatTicket (load (example_include "alice") ticket_open)));
            VObject (<["event" := VObject (delete "tickets" out)]>
                       (formatTicket (load (example_include "alice") ticket_removed))) ]).
Proof.
  apply (getEventsWithTickets_nested_tickets example_basic_filter
           example_events (member "alice") ∅ (now_include example_clock)
           event_gala).
  - unfold example_events. in_list.
  - reflexivity.
Defined.

(** In English, Adam's. *)
Lemma genitiveCase_other_witness :
  ("en" ≠ "sv")
  ∧ PositionPage.genitiveCase "en" "Adam" = "Adam's"
  ∧ PositionPage.genitiveCase "en" "Mans" = "Mans'".
Proof.
  assert (Hen : "en" ≠ "sv") by discriminate.
  split; [done|].
  destruct (genitiveCase_other "en" "Adam" Hen) as [Hadam _].
  destruct (genitiveCase_other "en" "Mans" Hen) as [Hmans _].
  split; [exact Hadam | exact Hmans].
Defined.

End MoreExamples.

(** ** Runs against the example environment *)

Section ExampleRuns.
Import PositionPage.
#[local] Existing Instance example_messages.

(** A valid form that names adam gives him the mandate. *)
Lemma addMandate_success_witness :
  ∃ (form : Form AddMandateData) (member : Member),
    valid form = true
    ∧ (exec (example_env true) (addMandate "chair")).1
      = [ Returned (superValidate addManadateSchema) form;
          Returned (member_findUnique (memberId (data form))) (Some member);
          Returned (mandate_create "chair" (memberId (data form))
                      (startDate (data form)) (endDate (data form))) tt;
          Started (keycloak_addMandate (studentId member) "chair") ]
    ∧ message {| valid := true;
                 data := {| memberId := "adam"; startDate := 1700000000000;
                            endDate := 1703980800000 |} |}
        "New mandate given to Adam" "success" None
      = message form
          (positions_newMandateGivenTo
             (nullish (firstName member) positions_theMember))
          "success" None.
Proof.
  exact (addMandate_success "chair" _ _
           (exec_runs (example_env true) (addMandate "chair")) eq_refl).
Defined.

(** In Swedish, the mandate removed is "Adams". *)
Lemma deleteMandate_success_witness :
  ∃ (form : Form DeleteMandateData) (member : Member),
    valid form = true
    ∧ (exec (example_env true) (deleteMandate "sv" "chair")).1
      = [ Returned (superValidate deleteMandateSchema) form;
          Returned (member_findFirst (deleted_mandateId (data form)))
            (Some member);
          Returned (mandate_delete (deleted_mandateId (data form)) "chair") tt;
          Started (keycloak_deleteMandate (studentId member) "chair") ]
    ∧ message {| valid := true; data := {| deleted_mandateId := "mandate-1" |} |}
        "Adams mandate removed" "success" None
      = message form
          (positions_mandateRemoved
             (genitiveCase "sv"
                (nullish (firstName member) positions_theMember)))
          "success" None.
Proof.
  exact (deleteMandate_success "sv" "chair" _ _
           (exec_runs (example_env true) (deleteMandate "sv" "chair")) eq_refl).
Defined.

(** An invalid form for a new mandate leaves everything as it is. *)
Lemma failed_action_is_quiet_witness :
  quiet (exec (example_env false) (addMandate "chair")).1.
Proof.
  destruct (failed_action_is_quiet "sv" "chair") as (_ & Hadd & _).
  apply (Hadd _ _ (exec_runs (example_env false) (addMandate "chair"))
           (fail 400 _) eq_refl eq_refl).
Defined.

(** A mandate given and a mandate taken both reach keycloak. *)
Lemma keycloak_in_step_witness :
  in_step (exec (example_env true) (addMandate "chair")).1
  ∧ in_step (exec (example_env true) (deleteMandate "sv" "chair")).1
  ∧ in_step (exec empty_env (deleteMandate "sv" "chair")).1.
Proof.
  destruct (keycloak_in_step "sv" "chair") as (Hadd & Hdelete & _).
  split; [|split].
  - apply (Hadd _ _ (exec_runs (example_env true) (addMandate "chair"))).
  - apply (Hdelete _ _ (exec_runs (example_env true) (deleteMandate "sv" "chair"))).
  - apply (Hdelete _ _ (exec_runs empty_env (deleteMandate "sv" "chair"))).
Defined.

(** The one write of a deletion on the page of the chair is to the
    chair. *)
Lemma actions_stay_in_position_witness :
  Forall (λ c, ∀ p, position_of c = Some p → p = "chair")
    (calls (exec (example_env true) (deleteMandate "sv" "chair")).1)
  ∧ (length (filter (λ c, is_write c)
               (calls (exec (example_env true) (deleteMandate "sv" "chair")).1))
     ≤ 1)%nat.
Proof.
  destruct (actions_stay_in_position "sv" "chair") as (_ & _ & _ & Hdelete).
  apply (Hdelete _ _ (exec_runs (example_env true) (deleteMandate "sv" "chair"))).
Defined.

(** A mandate updated ends in a redirect to the page of the chair. *)
Lemma updateMandate_redirects_witness :
  ∃ text, (exec (example_env true) (updateMandate "sv" "chair")).2
          = inl (Redirect "/positions/chair" text "success").
Proof.
  destruct (updateMandate_redirects "sv" "chair" _ _
              (exec_runs (example_env true) (updateMandate "sv" "chair")))
    as [[Hredirect _] _].
  apply Hredirect.
  exists (mandate_update "mandate-1" "chair" None (Some 1703980800000)).
  split; [|reflexivity]. right. right. left.
Defined.

(** An invalid form for the position itself. *)
Lemma invalid_form_fails_witness :
  ∃ form : Form UpdateData,
    valid form = false
    ∧ (exec (example_env false) (update "chair")).1
      = [Returned (superValidate updateSchema) form]
    ∧ (exec (example_env false) (update "chair")).2 = inr (fail 400 form).
Proof.
  destruct (invalid_form_fails "sv" "chair") as (Hupdate & _).
  apply (Hupdate _ _ (exec_runs (example_env false) (update "chair"))).
  left.
Defined.

(** Nobody to give the mandate to. *)
Lemma missing_member_witness :
  ∃ form : Form AddMandateData,
    (exec empty_env (addMandate "chair")).2
    = inr (setError form "memberId" "Member not found")
    ∧ calls (exec empty_env (addMandate "chair")).1
      = [ superValidate addManadateSchema;
          member_findUnique (memberId (data form)) ].
Proof.
  destruct (missing_member "sv" "chair") as (Hadd & _).
  apply (Hadd _ _ (exec_runs empty_env (addMandate "chair"))).
  left.
Defined.

(** No such position; and the chair, with the form for its one mandate
    and the three other forms started. *)
Lemma load_position_witness :
  (exec empty_env (load "nowhere" None)).2
  = inl (HttpError 404 "Position not found")
  ∧ ∀ loaded,
      (exec (example_env true) (load "chair" (Some "mandate-1"))).2
      = inr loaded →
      position loaded = chair
      ∧ calls (exec (example_env true) (load "chair" (Some "mandate-1"))).1
        = [ position_findUnique "chair";
            superValidate_from (position_data chair) updateSchema;
            superValidate_from no_data addManadateSchema;
            superValidate_from
              (mandate_data {| mandate_id := "mandate-1"; mandate_member := adam |})
              updateMandateSchema;
            superValidate_from no_data deleteMandateSchema ].
Proof.
  split.
  - destruct (load_position "nowhere" None _ _
                (exec_runs empty_env (load "nowhere" None)))
      as (_ & [_ Hmissing] & _).
    apply Hmissing. left.
  - intros loaded Hloaded.
    destruct (load_position "chair" (Some "mandate-1") _ _
                (exec_runs (example_env true) (load "chair" (Some "mandate-1"))))
      as (_ & _ & Hfound).
    destruct (Hfound loaded Hloaded) as (_ & _ & _ & _).
    injection Hloaded as <-. split; reflexivity.
Defined.

End ExampleRuns.
